(** * Zuari-Money growth simulator: the numeric engine of [script.js]

    A shallow embedding of the calculator part of [src/script.js]
    (helpers [safeParseNumber], [parseCagr], [buildNiftyData],
    [computeUserSeries], the benchmark rescaling and [calculateGrowth]),
    with theorems about its behaviour.

    JavaScript numbers are IEEE 754 binary64 values; they are modelled by
    Rocq's primitive [float], whose arithmetic is the same format with
    round-to-nearest-even.  Strings are modelled by [string]: a sequence of
    code units below 256, which is the range the theorems quantify over.
    (The two signs outside that range that the script only prints, the
    rupee sign and the infinity sign, are written as their UTF-8 bytes;
    nothing is ever parsed from them.) *)

From Stdlib Require Import ZArith String Ascii List Bool Lia.
From Stdlib Require Import Floats DecimalString.
Import ListNotations.

Set Warnings "-inexact-float".

Local Open Scope Z_scope.

(** ** JavaScript numbers and the built-ins the script calls *)

Module JS.

(** A JavaScript value, as far as the script's helpers distinguish them. *)
Inductive value : Type :=
| VUndefined
| VNull
| VNumber (n : float)
| VString (s : string).

(** [isFinite(x)] on a Number. *)
Definition isFinite (x : float) : bool := PrimFloat.is_finite x.

(** ToBoolean on a Number: [0], [-0] and [NaN] are falsy. *)
Definition truthy (x : float) : bool :=
  negb (PrimFloat.is_zero x || PrimFloat.is_nan x).

(** [a > b] and [a >= b] on Numbers (false when either is NaN). *)
Definition gtb (a b : float) : bool := (b <? a)%float.
Definition geb (a b : float) : bool := (b <=? a)%float.

(** The Number nearest to an integer (exact below 2^53). *)
Definition of_Z (z : Z) : float :=
  SF2Prim (binary_normalize prec emax z 0 false).

(** [Math.round]: non-finite and integral arguments are returned as they
    are; otherwise the nearest integer, ties towards +Infinity, with the
    sign of the argument kept on a zero result. *)
Definition Math_round (x : float) : float :=
  match Prim2SF x with
  | S754_finite s m e =>
      if 0 <=? e then x
      else
        let k := - e in
        let n := Z.shiftr (cond_Zopp s (Zpos m) + Z.shiftl 1 (k - 1)) k in
        if n =? 0 then (if s then neg_zero else zero) else of_Z n
  | _ => x
  end.

(** [arr[i]] for an integer index [i]: [undefined] outside the array. *)
Definition get {A : Type} (l : list A) (i : Z) : option A :=
  if i <? 0 then None else nth_error l (Z.to_nat i).

(** [x || d] where [x] is an array read that may be [undefined]. *)
Definition or_else (x : option float) (d : float) : float :=
  match x with
  | Some v => if truthy v then v else d
  | None => d
  end.

(** [Array.prototype.indexOf] on an array of Numbers (strict equality:
    NaN is never found, [0] and [-0] are equal); [-1] when absent. *)
Fixpoint indexOf_from (l : list float) (x : float) (i : Z) : Z :=
  match l with
  | [] => -1
  | y :: l' => if (y =? x)%float then i else indexOf_from l' x (i + 1)
  end.

Definition indexOf (l : list float) (x : float) : Z := indexOf_from l x 0.

(** *** Strings *)

(** The white space and line terminators below 256, as
    [String.prototype.trim], [parseFloat] and [parseInt] skip them: TAB,
    LF, VT, FF, CR, SP and the no-break space U+00A0. *)
Definition is_ws (c : ascii) : bool :=
  let n := N_of_ascii c in
  ((9 <=? n) && (n <=? 13))%N || (n =? 32)%N || (n =? 160)%N.

Fixpoint trim_start (s : string) : string :=
  match s with
  | String c s' => if is_ws c then trim_start s' else s
  | EmptyString => s
  end.

Fixpoint trim_end (s : string) : string :=
  match s with
  | String c s' =>
      match trim_end s' with
      | EmptyString => if is_ws c then EmptyString else String c EmptyString
      | t => String c t
      end
  | EmptyString => EmptyString
  end.

(** [s.trim()] *)
Definition trim (s : string) : string := trim_end (trim_start s).

(** [s.replace(/,/g, '')] *)
Fixpoint remove_commas (s : string) : string :=
  match s with
  | String c s' =>
      if (c =? ",")%char then remove_commas s' else String c (remove_commas s')
  | EmptyString => EmptyString
  end.

(** [s.endsWith('%')] and [s.slice(0, -1)] *)
Fixpoint endsWith_percent (s : string) : bool :=
  match s with
  | String c EmptyString => (c =? "%")%char
  | String _ s' => endsWith_percent s'
  | EmptyString => false
  end.

Fixpoint drop_last (s : string) : string :=
  match s with
  | String _ EmptyString => EmptyString
  | String c s' => String c (drop_last s')
  | EmptyString => EmptyString
  end.

(** *** Numeric literals *)

Definition digit (c : ascii) : option Z :=
  let n := Z.of_N (N_of_ascii c) in
  if (48 <=? n) && (n <=? 57) then Some (n - 48) else None.

(** Reads the longest run of decimal digits at the head of [s],
    continuing the value [acc]; returns the value, the number of digits
    read and the rest. *)
Fixpoint scan_digits (s : string) (acc count : Z) : Z * Z * string :=
  match s with
  | String c s' =>
      match digit c with
      | Some d => scan_digits s' (10 * acc + d) (count + 1)
      | None => (acc, count, s)
      end
  | EmptyString => (acc, count, s)
  end.

Definition scan_sign (s : string) : bool * string :=
  match s with
  | String c s' =>
      if (c =? "-")%char then (true, s')
      else if (c =? "+")%char then (false, s')
      else (false, s)
  | EmptyString => (false, s)
  end.

(** The value of an optional ExponentPart at the head of [s] (0 when there
    is none: an [e] that no digit follows is not part of the literal). *)
Definition scan_exponent (s : string) : Z :=
  match s with
  | String c s' =>
      if (c =? "e")%char || (c =? "E")%char then
        let '(neg, s'') := scan_sign s' in
        let '(v, n, _) := scan_digits s'' 0 0 in
        if n =? 0 then 0 else if neg then - v else v
      else 0
  | EmptyString => 0
  end.

(** The Number nearest to [m * 10^e] for [m >= 0] (ties to even): an
    integer is rounded directly, a fraction by one correctly rounded
    division of integers. *)
Definition dec_value (m e : Z) : float :=
  if m =? 0 then zero
  else if 0 <=? e then of_Z (m * 10 ^ e)
  else
    let '(q, e', l) := SFdiv_core_binary prec emax m 0 (10 ^ (- e)) 0 in
    SF2Prim (binary_round_aux prec emax false q e' l).

(** The longest prefix of [s] that is a StrUnsignedDecimalLiteral, as a
    Number; [None] when no prefix is one. *)
Definition scan_unsigned (s : string) : option float :=
  if prefix "Infinity" s then Some infinity
  else
    let '(ip, ni, r1) := scan_digits s 0 0 in
    let dot :=
      match r1 with
      | String c r2 => if (c =? ".")%char then Some r2 else None
      | EmptyString => None
      end in
    match dot with
    | Some r2 =>
        let '(m, nf, r3) := scan_digits r2 ip 0 in
        if (ni =? 0) && (nf =? 0) then None
        else Some (dec_value m (scan_exponent r3 - nf))
    | None =>
        if ni =? 0 then None else Some (dec_value ip (scan_exponent r1))
    end.

(** [parseFloat(s)] *)
Definition parseFloat (s : string) : float :=
  let '(neg, r) := scan_sign (trim_start s) in
  match scan_unsigned r with
  | Some v => if neg then (- v)%float else v
  | None => nan
  end.

(** [parseInt(s, 10)] *)
Definition parseInt10 (s : string) : float :=
  let '(neg, r) := scan_sign (trim_start s) in
  let '(v, n, _) := scan_digits r 0 0 in
  if n =? 0 then nan
  else if neg then (- of_Z v)%float else of_Z v.

(** *** Numbers to strings *)

(** Decimal digits of a non-negative integer. *)
Definition digits_of_Z (n : Z) : string :=
  NilZero.string_of_uint (N.to_uint (Z.to_N n)).

Fixpoint zeros (n : nat) : string :=
  match n with
  | O => EmptyString
  | S k => String "0" (zeros k)
  end.

(** [m * 2^e * 10^p] as a fraction of two positive integers. *)
Definition scaled (m e p : Z) : Z * Z :=
  (m * 2 ^ Z.max e 0 * 10 ^ Z.max p 0, 2 ^ Z.max (- e) 0 * 10 ^ Z.max (- p) 0).

(** The least [n >= n0] with [m * 2^e < 10^n]. *)
Fixpoint magnitude (fuel : nat) (m e n0 : Z) : Z :=
  match fuel with
  | O => n0
  | S fuel' =>
      let '(a, b) := scaled m e (- n0) in
      if a <? b then n0 else magnitude fuel' m e (n0 + 1)
  end.

(** The digits [s] and exponent [n] of Number::toString for the positive
    finite [x = m * 2^e]: the least [k >= k0] for which a [k]-digit [s]
    with [s * 10^(n - k)] rounding to [x] exists, the [s] nearest to [x]
    (the even one on a tie). *)
Fixpoint shortest (fuel : nat) (x : float) (m e n0 k : Z) : Z * Z * Z :=
  let '(a, b) := scaled m e (k - n0) in
  let lo := a / b in
  let r := a mod b in
  let hi := lo + 1 in
  let lo_ok := (dec_value lo (n0 - k) =? x)%float in
  let hi_ok := negb (r =? 0) && (dec_value hi (n0 - k) =? x)%float in
  let pick_hi :=
    hi_ok && (negb lo_ok || (b <? 2 * r) || ((b =? 2 * r) && Z.odd lo)) in
  match fuel with
  | S fuel' =>
      if lo_ok || hi_ok then
        if pick_hi then
          if hi =? 10 ^ k then (10 ^ (k - 1), n0 + 1, k) else (hi, n0, k)
        else (lo, n0, k)
      else shortest fuel' x m e n0 (k + 1)
  | O => (lo, n0, k)
  end.

(** Number::toString (radix 10) of a positive finite Number. *)
Definition positive_toString (x : float) : string :=
  match Prim2SF x with
  | S754_finite _ m e =>
      let n0 := magnitude 700 (Zpos m) e (-330) in
      let '(s, n, k) := shortest 17 x (Zpos m) e n0 1 in
      let ds := digits_of_Z s in
      if (k <=? n) && (n <=? 21) then (ds ++ zeros (Z.to_nat (n - k)))%string
      else if (0 <? n) && (n <=? 21) then
        (substring 0 (Z.to_nat n) ds ++ "."
           ++ substring (Z.to_nat n) (Z.to_nat (k - n)) ds)%string
      else if (-6 <? n) && (n <=? 0) then
        ("0." ++ zeros (Z.to_nat (- n)) ++ ds)%string
      else
        let sg := if n - 1 <? 0 then "-"%string else "+"%string in
        let ex := (sg ++ digits_of_Z (Z.abs (n - 1)))%string in
        if k =? 1 then (ds ++ "e" ++ ex)%string
        else (substring 0 1 ds ++ "." ++ substring 1 (Z.to_nat (k - 1)) ds
                ++ "e" ++ ex)%string
  | _ => EmptyString
  end.

(** [String(x)] for a Number [x]. *)
Definition Number_toString (x : float) : string :=
  if PrimFloat.is_nan x then "NaN"%string
  else if PrimFloat.is_zero x then "0"%string
  else if (x <? 0)%float then
    (if PrimFloat.is_infinity x then "-Infinity"%string
     else ("-" ++ positive_toString (- x)%float)%string)
  else if PrimFloat.is_infinity x then "Infinity"%string
  else positive_toString x.

(** [x.toFixed(f)]: the integer [n] with [n / 10^f] nearest to [x] (the
    larger on a tie), printed with [f] digits after the point. *)
Definition toFixed (x : float) (f : nat) : string :=
  match Prim2SF x with
  | S754_zero _ => if (f =? 0)%nat then "0"%string else ("0." ++ zeros f)%string
  | S754_finite sg m e =>
      if (1e21 <=? abs x)%float then Number_toString x
      else
        let '(a, b) := scaled (Zpos m) e (Z.of_nat f) in
        let n := (2 * a + b) / (2 * b) in
        let ds := digits_of_Z n in
        let ds := (zeros (S f - String.length ds) ++ ds)%string in
        let k := String.length ds in
        let body :=
          if (f =? 0)%nat then ds
          else (substring 0 (k - f) ds ++ "." ++ substring (k - f) f ds)%string in
        if sg then ("-" ++ body)%string else body
  | _ => Number_toString x
  end.

End JS.

Import JS.

(** ** [Math.pow]

    ECMAScript fixes the special cases of exponentiation and leaves the
    general case "implementation-approximated".  The special cases the
    script can reach are written out; the approximated part is the
    parameter [pow_approx]. *)

Section Pow.

Variable pow_approx : float -> float -> float.

Definition Math_pow (base exponent : float) : float :=
  if PrimFloat.is_nan exponent then nan
  else if PrimFloat.is_zero exponent then 1%float
  else pow_approx base exponent.

End Pow.

(** A concrete exponentiation for non-negative integral exponents, by
    repeated multiplication; used to evaluate the engine on examples. *)
Fixpoint pow_nat (base : float) (n : nat) : float :=
  match n with
  | O => 1%float
  | S k => (base * pow_nat base k)%float
  end.

Definition pow_repeat (base exponent : float) : float :=
  match Prim2SF exponent with
  | S754_finite false m e => pow_nat base (Z.to_nat (Z.shiftl (Zpos m) e))
  | _ => nan
  end.

(** ** Configuration *)

Definition START_YEAR : float := 2015%float.

Definition baseNiftySamples : list float :=
  [10000; 11000; 12500; 13000; 15000; 14000; 18000; 21000; 20000; 24000; 25000]%float.

(** [YEARS = Array.from({length: CURRENT_YEAR - START_YEAR + 1},
    (_, i) => START_YEAR + i)]; [CURRENT_YEAR] is the integer
    [new Date().getFullYear()]; a non-positive length gives the empty
    array. *)
Definition YEARS_of (CURRENT_YEAR : Z) : list float :=
  map (fun i => (START_YEAR + of_Z (Z.of_nat i))%float)
      (seq 0 (Z.to_nat (CURRENT_YEAR - 2015 + 1))).

(** ** [buildNiftyData] *)

(** The trailing growth rate [approxCagr] of lines 43-46. *)
Definition seed_last (result : list float) : float :=
  or_else (get result (Z.of_nat (length result) - 1)) 10000%float.

Definition seed_prev (result : list float) : float :=
  or_else (get result (Z.of_nat (length result) - 2)) (seed_last result).

Definition approxCagr_of (result : list float) : float :=
  let last := seed_last result in
  let prev := seed_prev result in
  let approxCagr := if gtb prev 0%float then (last / prev - 1)%float else 0.08%float in
  if negb (isFinite approxCagr) || (approxCagr <=? -1)%float then 0.08%float
  else approxCagr.

(** The [while (result.length < years.length)] loop of lines 47-50; each
    turn pushes one entry, so [fuel] bounds the number of turns. *)
Fixpoint extend_loop (fuel : nat) (n_years : nat) (approxCagr : float)
    (last : float) (result : list float) : list float :=
  match fuel with
  | O => result
  | S fuel' =>
      if (length result <? n_years)%nat then
        let last' := (last * (1 + approxCagr))%float in
        extend_loop fuel' n_years approxCagr last' (result ++ [Math_round last'])
      else result
  end.

Definition buildNiftyData (years : list float) (seedArray : list float) : list float :=
  let result := seedArray in
  if (length years <=? length result)%nat
  then map Math_round (firstn (length years) result)
  else
    let last := seed_last result in
    let approxCagr := approxCagr_of result in
    map Math_round
      (extend_loop (length years) (length years) approxCagr last result).

(** ** [computeUserSeries] *)

Section Series.

Variable pow_approx : float -> float -> float.

(** One entry of the projection: [null] before the start year and for a
    non-finite value. *)
Definition userEntry (principal startYear cagrDecimal year : float) : option float :=
  if (year <? startYear)%float then None
  else
    let yearsDiff := (year - startYear)%float in
    let val := (principal * Math_pow pow_approx (1 + cagrDecimal) yearsDiff)%float in
    if isFinite val then Some (Math_round val) else None.

Definition computeUserSeries (YEARS : list float)
    (principal startYear cagrDecimal : float) : list (option float) :=
  map (userEntry principal startYear cagrDecimal) YEARS.

End Series.

(** ** [safeParseNumber] and [parseCagr] *)

Definition safeParseNumber (str : value) : float :=
  match str with
  | VNumber n => n
  | VUndefined | VNull => nan
  | VString EmptyString => nan
  | VString s => parseFloat (trim (remove_commas s))
  end.

(** [String(v)] for the values [parseCagr] converts. *)
Definition String_of (v : value) : string :=
  match v with
  | VUndefined => "undefined"
  | VNull => "null"
  | VNumber n => Number_toString n
  | VString s => s
  end.

Definition parseCagr (v : value) : float :=
  match v with
  | VUndefined | VNull => nan
  | _ =>
      let s := trim (String_of v) in
      let s := if endsWith_percent s then drop_last s else s in
      let n := safeParseNumber (VString s) in
      if negb (isFinite n) then nan
      else if gtb n 1%float then (n / 100)%float
      else n
  end.

(** ** The page and the chart *)

(** The two data arrays of [marketChart.data.datasets] and the [hidden]
    flag of the second; an entry is a Number or [null]. *)
Record chart : Type := {
  nifty_data : list (option float);
  user_data : list (option float);
  user_hidden : bool
}.

(** The elements [calculateGrowth] reads and writes; [None] is a missing
    element.  [activeBtn] is the [data-cagr] attribute of the category
    button carrying the class [active], if there is one. *)
Record page : Type := {
  simAmountInput : option string;
  simYearSelect : option string;
  simResultBox : option string;
  simFinalAmountEl : option string;
  simTotalReturnEl : option string;
  simCagrUsedEl : option string;
  activeBtn : option (option string);
  marketChart : chart
}.

Definition set_chart (p : page) (c : chart) : page :=
  {| simAmountInput := simAmountInput p;
     simYearSelect := simYearSelect p;
     simResultBox := simResultBox p;
     simFinalAmountEl := simFinalAmountEl p;
     simTotalReturnEl := simTotalReturnEl p;
     simCagrUsedEl := simCagrUsedEl p;
     activeBtn := activeBtn p;
     marketChart := c |}.

(** [if (simResultBox) simResultBox.style.display = d] *)
Definition set_display (p : page) (d : string) : page :=
  {| simAmountInput := simAmountInput p;
     simYearSelect := simYearSelect p;
     simResultBox := option_map (fun _ => d) (simResultBox p);
     simFinalAmountEl := simFinalAmountEl p;
     simTotalReturnEl := simTotalReturnEl p;
     simCagrUsedEl := simCagrUsedEl p;
     activeBtn := activeBtn p;
     marketChart := marketChart p |}.

(** The three guarded [textContent] assignments of lines 400-402. *)
Definition set_summary (p : page) (final total cagr : string) : page :=
  {| simAmountInput := simAmountInput p;
     simYearSelect := simYearSelect p;
     simResultBox := simResultBox p;
     simFinalAmountEl := option_map (fun _ => final) (simFinalAmountEl p);
     simTotalReturnEl := option_map (fun _ => total) (simTotalReturnEl p);
     simCagrUsedEl := option_map (fun _ => cagr) (simCagrUsedEl p);
     activeBtn := activeBtn p;
     marketChart := marketChart p |}.

(** [activeBtn.dataset.cagr] as a value. *)
Definition dataset_cagr (a : option string) : value :=
  match a with
  | Some s => VString s
  | None => VUndefined
  end.

(** The rescaled benchmark of lines 365-369. *)
Definition scaleEntry (YEARS niftyData : list float) (principal startYear : float)
    (idx : nat) (val : float) : option float :=
  let year := match nth_error YEARS idx with Some y => y | None => nan end in
  if (year <? startYear)%float then None
  else
    let base :=
      match get niftyData (indexOf YEARS startYear) with
      | Some b => b
      | None => nan
      end in
    let scaleFactor := (principal / base)%float in
    Some (Math_round (val * scaleFactor)).

Fixpoint mapi_from {A B : Type} (f : nat -> A -> B) (i : nat) (l : list A) : list B :=
  match l with
  | [] => []
  | x :: l' => f i x :: mapi_from f (S i) l'
  end.

Definition scaledNiftyData (YEARS niftyData : list float) (principal startYear : float)
    : list (option float) :=
  mapi_from (scaleEntry YEARS niftyData principal startYear) 0 niftyData.

Section Engine.

(** What the page's script fixes at start-up: the axis, the current
    year and the benchmark series; and the two built-ins whose results
    the language leaves to the implementation. *)
Variable pow_approx : float -> float -> float.
Variable toLocaleString : float -> string.
Variable YEARS : list float.
Variable CURRENT_YEAR : float.
Variable niftyData : list float.

(** [fmtINR]; [toLocaleString x] stands for
    [x.toLocaleString('en-IN', { maximumFractionDigits: 0 })]. *)
Definition fmtINR (v : float) : string :=
  ("₹" ++ toLocaleString v)%string.

(** [marketChart.update] draws the chart as it is: each call is recorded
    with the data it draws. *)
Definition revealUserSeries (series : list (option float)) (p : page)
    : page * list chart :=
  let c := {| nifty_data := nifty_data (marketChart p);
              user_data := series;
              user_hidden := false |} in
  (set_chart p c, [c]).

Definition hideUserSeries (p : page) : page * list chart :=
  let c := {| nifty_data := nifty_data (marketChart p);
              user_data := map (fun _ => None) YEARS;
              user_hidden := true |} in
  (set_chart p c, [c]).

(** The three failing exits of [calculateGrowth]. *)
Definition suppress (p : page) : page * list chart :=
  hideUserSeries (set_display p "none").

Definition calculateGrowth (p : page) : page * list chart :=
  match simAmountInput p, simYearSelect p, simResultBox p with
  | Some amount, Some year, Some _ =>
      let principal := safeParseNumber (VString amount) in
      let startYear := parseInt10 year in
      let p :=
        set_chart p
          {| nifty_data := scaledNiftyData YEARS niftyData principal startYear;
             user_data := user_data (marketChart p);
             user_hidden := user_hidden (marketChart p) |} in
      match activeBtn p with
      | None => suppress p
      | Some attr =>
          if negb (isFinite principal) || (principal <? 1000)%float
             || negb (isFinite startYear)
          then suppress p
          else
            let cagr := parseCagr (dataset_cagr attr) in
            if negb (isFinite cagr) then suppress p
            else
              let durationYears := (CURRENT_YEAR - startYear)%float in
              if (durationYears <? 0)%float then suppress p
              else
                let finalAmount :=
                  (principal * Math_pow pow_approx (1 + cagr) durationYears)%float in
                let totalReturnPercent :=
                  ((finalAmount - principal) / principal * 100)%float in
                let p :=
                  set_summary p
                    (fmtINR (Math_round finalAmount))
                    (toFixed totalReturnPercent 1 ++ "%")%string
                    (toFixed (cagr * 100)%float 2 ++ "%")%string in
                let p := set_display p "block" in
                let userSeries :=
                  computeUserSeries pow_approx YEARS principal startYear cagr in
                let '(p, frames) := revealUserSeries userSeries p in
                (p, frames ++ [marketChart p])
      end
  | _, _, _ => (p, [])
  end.

End Engine.

(** ** The page as the script sets it up *)

(** [niftyData = buildNiftyData(YEARS, baseNiftySamples)] *)
Definition niftyData_of (CURRENT_YEAR : Z) : list float :=
  buildNiftyData (YEARS_of CURRENT_YEAR) baseNiftySamples.

Definition calculateGrowth_in (pow_approx : float -> float -> float)
    (toLocaleString : float -> string) (CURRENT_YEAR : Z) : page -> page * list chart :=
  calculateGrowth pow_approx toLocaleString
    (YEARS_of CURRENT_YEAR) (of_Z CURRENT_YEAR) (niftyData_of CURRENT_YEAR).

(** The chart before the first recalculation (lines 265-296). *)
Definition initial_chart (CURRENT_YEAR : Z) : chart :=
  {| nifty_data := map Some (niftyData_of CURRENT_YEAR);
     user_data := map (fun _ => None) (YEARS_of CURRENT_YEAR);
     user_hidden := true |}.

(** A concrete [en-IN] formatter for integral amounts (groups of three,
    then of two), used to evaluate the engine on examples. *)
Fixpoint group_pairs (fuel : nat) (s : string) : string :=
  match fuel with
  | O => s
  | S fuel' =>
      let n := String.length s in
      if (n <=? 2)%nat then s
      else (group_pairs fuel' (substring 0 (n - 2) s) ++ "," ++ substring (n - 2) 2 s)%string
  end.

Definition group_enIN (ds : string) : string :=
  let n := String.length ds in
  if (n <=? 3)%nat then ds
  else (group_pairs n (substring 0 (n - 3) ds) ++ "," ++ substring (n - 3) 3 ds)%string.

Definition enIN (x : float) : string :=
  match Prim2SF x with
  | S754_nan => "NaN"%string
  | S754_infinity sg => if sg then "-∞"%string else "∞"%string
  | S754_zero sg => if sg then "-0"%string else "0"%string
  | S754_finite sg m e =>
      let '(a, b) := scaled (Zpos m) e 0 in
      let ds := group_enIN (digits_of_Z ((2 * a + b) / (2 * b))) in
      if sg then ("-" ++ ds)%string else ds
  end.

Definition sample_page (amount year : string) (active : option (option string))
    (cy : Z) : page :=
  {| simAmountInput := Some amount;
     simYearSelect := Some year;
     simResultBox := Some "none"%string;
     simFinalAmountEl := Some ""%string;
     simTotalReturnEl := Some ""%string;
     simCagrUsedEl := Some ""%string;
     activeBtn := active;
     marketChart := initial_chart cy |}.

(** ** Auxiliary definitions used in the statements *)

(** The running value of the extension loop after [j] turns:
    [last * (1 + rate) * ... * (1 + rate)], multiplied one factor at a
    time. *)
Fixpoint compound (rate last : float) (j : nat) : float :=
  match j with
  | O => last
  | S k => (compound rate last k * (1 + rate))%float
  end.

(** The entries the loop appends when [n] are missing. *)
Definition extension (rate last : float) (n : nat) : list float :=
  map (fun j => Math_round (compound rate last (S j))) (seq 0 n).

(** The extension as the specification words it: the rate is that of the
    last two seed entries, and 0.08 when the seed has fewer than two
    entries or the rate is not finite or at most -1. *)
Definition spec_rate (seed : list float) : float :=
  match rev seed with
  | last :: prev :: _ =>
      let rate := (last / prev - 1)%float in
      if negb (isFinite rate) || (rate <=? -1)%float then 0.08%float else rate
  | _ => 0.08%float
  end.

Definition spec_buildBenchmarkSeries (axis seed : list float) : list float :=
  seed ++ extension (spec_rate seed) (last seed nan) (length axis - length seed).

(** The page after a run that fails the gate, and after one that passes
    it, written out field by field. *)
Definition suppressed_page (YEARS : list float) (p : page)
    (scaled : list (option float)) : page :=
  {| simAmountInput := simAmountInput p;
     simYearSelect := simYearSelect p;
     simResultBox := Some "none"%string;
     simFinalAmountEl := simFinalAmountEl p;
     simTotalReturnEl := simTotalReturnEl p;
     simCagrUsedEl := simCagrUsedEl p;
     activeBtn := activeBtn p;
     marketChart := {| nifty_data := scaled;
                       user_data := map (fun _ => None) YEARS;
                       user_hidden := true |} |}.

Definition shown_page (p : page) (scaled series : list (option float))
    (final total cagr : string) : page :=
  {| simAmountInput := simAmountInput p;
     simYearSelect := simYearSelect p;
     simResultBox := Some "block"%string;
     simFinalAmountEl := option_map (fun _ => final) (simFinalAmountEl p);
     simTotalReturnEl := option_map (fun _ => total) (simTotalReturnEl p);
     simCagrUsedEl := option_map (fun _ => cagr) (simCagrUsedEl p);
     activeBtn := activeBtn p;
     marketChart := {| nifty_data := scaled;
                       user_data := series;
                       user_hidden := false |} |}.

(** The shape of a text with [f] decimal places: an optional minus sign,
    at least one digit, a point and exactly [f] digits. *)
Fixpoint all_digits (s : string) : bool :=
  match s with
  | String c r =>
      (match digit c with Some _ => true | None => false end) && all_digits r
  | EmptyString => true
  end.

Fixpoint split_at_point (s : string) : option (string * string) :=
  match s with
  | String c r =>
      if (c =? ".")%char then Some (EmptyString, r)
      else match split_at_point r with
           | Some (a, b) => Some (String c a, b)
           | None => None
           end
  | EmptyString => None
  end.

Definition fixed_point (s : string) (f : nat) : bool :=
  let body :=
    match s with
    | String c r => if (c =? "-")%char then r else s
    | EmptyString => s
    end in
  match split_at_point body with
  | Some (int, frac) =>
      negb (String.length int =? 0)%nat && all_digits int
      && all_digits frac && (String.length frac =? f)%nat
  | None => false
  end.

(** The values the year select offers (lines 255-260): [String(y)] for
    each year [y] from [START_YEAR] to [CURRENT_YEAR], the years of
    [YEARS]. *)
Definition year_options (YEARS : list float) : list string :=
  map Number_toString YEARS.

(** A year of the axis as the select can hold it: a finite Number whose
    text parses back to it. *)
Definition axis_year (y : float) : bool :=
  isFinite y && PrimFloat.Leibniz.eqb (parseInt10 (Number_toString y)) y.

(** The conditions under which [calculateGrowth] reaches line 397, in the
    order the code tests them. *)
Definition gate (CURRENT_YEAR : float) (amount year : string)
    (active : option (option string)) : bool :=
  match active with
  | None => false
  | Some attr =>
      let principal := safeParseNumber (VString amount) in
      let startYear := parseInt10 year in
      isFinite principal && negb (principal <? 1000)%float
      && isFinite startYear
      && isFinite (parseCagr (dataset_cagr attr))
      && negb (CURRENT_YEAR - startYear <? 0)%float
  end.

(** The text [safeParseNumber] hands to [parseFloat], and the number
    [parseCagr] reads from a value that is neither [null] nor
    [undefined]. *)
Definition cleaned (s : string) : string := trim (remove_commas s).

Definition parsed_rate (v : value) : float :=
  let s := trim (String_of v) in
  safeParseNumber (VString (if endsWith_percent s then drop_last s else s)).

(** Whether a text begins with a decimal digit. *)
Definition starts_with_digit (s : string) : bool :=
  match s with
  | String c _ => match digit c with Some _ => true | None => false end
  | EmptyString => false
  end.

(** Whether a text begins, after white space and an optional sign, with a
    decimal literal: a digit, a point followed by a digit, or
    [Infinity]. *)
Definition starts_with_literal (t : string) : bool :=
  let r := snd (scan_sign (trim_start t)) in
  prefix "Infinity" r
  || starts_with_digit r
  || match r with
     | String c r' => (c =? ".")%char && starts_with_digit r'
     | EmptyString => false
     end.

(** What every value of the benchmark the script builds is: a finite
    Number of at least 10000, so never the [0] a division would trip on. *)
Definition benchmark_value (b : float) : bool :=
  isFinite b && geb b 10000%float && negb (PrimFloat.is_zero b).

(** ** Parts of the script around the calculator *)

(** [computeHighlightIndices] (lines 54-56), and its default list of
    highlighted years. *)
Definition computeHighlightIndices (years highlights : list float) : list Z :=
  filter (fun i => 0 <=? i) (map (fun y => indexOf years y) highlights).

Definition default_highlights (CURRENT_YEAR : float) : list float :=
  [2019%float; 2022%float; CURRENT_YEAR].

(** *** The category buttons (lines 413-421) *)

(** A [.category-btn]: its [data-cagr] attribute, whether it carries the
    class [active], its [aria-checked] attribute, and whether it lies
    inside [.category-selector]. *)
Record category_btn : Type := {
  btn_cagr : option string;
  btn_active : bool;
  btn_aria_checked : option string;
  btn_in_selector : bool
}.

(** [b.classList.remove('active'); b.setAttribute('aria-checked', 'false')] *)
Definition deactivate (b : category_btn) : category_btn :=
  {| btn_cagr := btn_cagr b;
     btn_active := false;
     btn_aria_checked := Some "false"%string;
     btn_in_selector := btn_in_selector b |}.

(** [btn.classList.add('active'); btn.setAttribute('aria-checked', 'true')] *)
Definition activate (b : category_btn) : category_btn :=
  {| btn_cagr := btn_cagr b;
     btn_active := true;
     btn_aria_checked := Some "true"%string;
     btn_in_selector := btn_in_selector b |}.

Fixpoint activate_at (i : nat) (btns : list category_btn) : list category_btn :=
  match btns, i with
  | [], _ => []
  | b :: btns', O => activate b :: btns'
  | b :: btns', S i' => b :: activate_at i' btns'
  end.

(** [document.querySelector('.category-selector .category-btn.active')]:
    the first match in document order, here its [data-cagr]. *)
Definition query_active (btns : list category_btn) : option (option string) :=
  match find (fun b => btn_in_selector b && btn_active b) btns with
  | Some b => Some (btn_cagr b)
  | None => None
  end.

Definition with_active (p : page) (a : option (option string)) : page :=
  {| simAmountInput := simAmountInput p;
     simYearSelect := simYearSelect p;
     simResultBox := simResultBox p;
     simFinalAmountEl := simFinalAmountEl p;
     simTotalReturnEl := simTotalReturnEl p;
     simCagrUsedEl := simCagrUsedEl p;
     activeBtn := a;
     marketChart := marketChart p |}.

(** The click handler of the [i]-th category button: every button is
    deactivated, the clicked one activated, and the calculator run on the
    page as it then is. *)
Definition click_category (pow_approx : float -> float -> float)
    (toLocaleString : float -> string) (YEARS : list float) (CURRENT_YEAR : float)
    (niftyData : list float) (i : nat) (btns : list category_btn) (p : page)
    : list category_btn * (page * list chart) :=
  let btns' := activate_at i (map deactivate btns) in
  (btns',
   calculateGrowth pow_approx toLocaleString YEARS CURRENT_YEAR niftyData
     (with_active p (query_active btns'))).

(** *** The tabs (lines 188-197) *)

Record tab_button : Type := {
  tab_active : bool;
  data_tab : option string
}.

Record tab_content : Type := {
  content_id : string;
  content_active : bool
}.

Fixpoint activate_tab_at (i : nat) (btns : list tab_button) : list tab_button :=
  match btns, i with
  | [], _ => []
  | b :: btns', O => {| tab_active := true; data_tab := data_tab b |} :: btns'
  | b :: btns', S i' => b :: activate_tab_at i' btns'
  end.

(** [c.id === tabId], where [tabId] is [null] without the attribute. *)
Definition id_is (c : tab_content) (tabId : option string) : bool :=
  match tabId with
  | Some t => String.eqb (content_id c) t
  | None => false
  end.

(** The click handler of the [i]-th tab button. *)
Definition click_tab (i : nat) (btns : list tab_button) (contents : list tab_content)
    : list tab_button * list tab_content :=
  let cleared := map (fun b => {| tab_active := false; data_tab := data_tab b |}) btns in
  let tabId :=
    match nth_error btns i with
    | Some b => data_tab b
    | None => None
    end in
  (activate_tab_at i cleared,
   map (fun c => {| content_id := content_id c; content_active := id_is c tabId |})
       contents).

(** *** The lead form and its modal (lines 84-165, 225-235) *)

(** A form control with its current and its default value. *)
Record control : Type := {
  ctl_value : string;
  ctl_default : string
}.

Record submit_button : Type := {
  sb_disabled : bool;
  sb_text : string
}.

(** The elements the lead form's handlers touch ([None]: no such
    element): the controls [leadForm.name] and [leadForm.phone], the
    submit button, the [display] of the form container and of the
    confirmation message, whether the modal carries the class [show],
    and the script's flag [popupShown]. *)
Record lead_dom : Type := {
  lead_name : option control;
  lead_phone : option control;
  submitButton : option submit_button;
  formContainer : option string;
  confirmationMessage : option string;
  leadModal : option bool;
  popupShown : bool
}.

(** What a handler does to the world outside the page, in order: an
    [alert], the [fetch] of [/api/submit] (the body is kept as the object
    that [JSON.stringify] is given), and the timer that closes the
    modal. *)
Inductive effect : Type :=
| Alert (message : string)
| Fetch (url method content_type : string) (name phone : string)
| SetTimeout_closeModal (ms : Z).

Definition openModal (d : lead_dom) : lead_dom :=
  let both :=
    match formContainer d, confirmationMessage d with
    | Some _, Some _ => true
    | _, _ => false
    end in
  {| lead_name := lead_name d;
     lead_phone := lead_phone d;
     submitButton := submitButton d;
     formContainer := if both then Some "block"%string else formContainer d;
     confirmationMessage := if both then Some "none"%string else confirmationMessage d;
     leadModal := option_map (fun _ => true) (leadModal d);
     popupShown := popupShown d |}.

Definition closeModal (d : lead_dom) : lead_dom :=
  {| lead_name := lead_name d;
     lead_phone := lead_phone d;
     submitButton := submitButton d;
     formContainer := formContainer d;
     confirmationMessage := confirmationMessage d;
     leadModal := option_map (fun _ => false) (leadModal d);
     popupShown := popupShown d |}.

(** [(leadForm.x?.value || '').trim()] *)
Definition field_text (c : option control) : string :=
  match c with
  | Some c => trim (ctl_value c)
  | None => trim ""
  end.

(** [/^[0-9]{n}$/.test(s)] *)
Fixpoint digits_exactly (n : nat) (s : string) : bool :=
  match n, s with
  | O, EmptyString => true
  | S n', String c s' =>
      match digit c with
      | Some _ => digits_exactly n' s'
      | None => false
      end
  | _, _ => false
  end.

(** The quick validation of line 128, negated: the lead is accepted. *)
Definition lead_accepted (name phone : string) : bool :=
  negb (String.eqb name "") && digits_exactly 10 phone.

Definition reset_control (c : control) : control :=
  {| ctl_value := ctl_default c; ctl_default := ctl_default c |}.

(** The [submit] handler of the lead form. *)
Definition submit_lead (d : lead_dom) : lead_dom * list effect :=
  let name := field_text (lead_name d) in
  let phone := field_text (lead_phone d) in
  if negb (lead_accepted name phone)
  then (d, [Alert "Please enter a valid name and 10-digit phone number."])
  else
    let originalText :=
      match submitButton d with
      | Some b => sb_text b
      | None => ""%string
      end in
    let both :=
      match formContainer d, confirmationMessage d with
      | Some _, Some _ => true
      | _, _ => false
      end in
    ({| lead_name := option_map reset_control (lead_name d);
        lead_phone := option_map reset_control (lead_phone d);
        submitButton :=
          option_map (fun _ => {| sb_disabled := false; sb_text := originalText |})
                     (submitButton d);
        formContainer := if both then Some "none"%string else formContainer d;
        confirmationMessage :=
          if both then Some "block"%string else confirmationMessage d;
        leadModal := leadModal d;
        popupShown := popupShown d |},
     [Fetch "/api/submit" "POST" "application/json" name phone;
      SetTimeout_closeModal 600]).

(** The [scroll] handler that opens the modal once the lower edge of the
    window has passed half of the page. *)
Definition on_scroll (scrollY innerHeight scrollHeight : float) (d : lead_dom)
    : lead_dom :=
  if popupShown d then d
  else
    let scrollPosition := (scrollY + innerHeight)%float in
    if geb (scrollPosition / scrollHeight)%float 0.5%float then
      let d' :=
        {| lead_name := lead_name d;
           lead_phone := lead_phone d;
           submitButton := submitButton d;
           formContainer := formContainer d;
           confirmationMessage := confirmationMessage d;
           leadModal := leadModal d;
           popupShown := true |} in
      match leadModal d with
      | Some false => openModal d'
      | _ => d'
      end
    else d.

(** A run of scroll events, each given by [scrollY], [innerHeight] and
    [scrollHeight]. *)
Definition scrolls (events : list (float * float * float)) (d : lead_dom) : lead_dom :=
  fold_left (fun d ev => let '(y, h, total) := ev in on_scroll y h total d) events d.

(** *** The accordion (lines 172-185) *)

(** An accordion item that has a header and a content: whether it carries
    the class [active], and the [max-height] of its content's style (the
    empty string when unset, as after an assignment of [null]). *)
Record accordion_item : Type := {
  item_active : bool;
  content_maxHeight : string
}.

(** The click handler of the header; [scrollHeight] is the content's at
    the time of the click. *)
Definition click_accordion (scrollHeight : float) (item : accordion_item)
    : accordion_item :=
  let active := negb (item_active item) in
  {| item_active := active;
     content_maxHeight :=
       if active then (Number_toString scrollHeight ++ "px")%string
       else ""%string |}.

(** *** The animated highlight (lines 460-482) *)

(** What [isInViewport] reads: the element's [rect.top] and
    [rect.bottom], [window.innerHeight] and the document element's
    [clientHeight]. *)
Record view : Type := {
  rect_top : float;
  rect_bottom : float;
  innerHeight : float;
  clientHeight : float
}.

(** [isInViewport(el)]; [present] is whether [el] is an element. *)
Definition isInViewport (present : bool) (v : view) : bool :=
  if negb present then false
  else
    let height := if truthy (innerHeight v) then innerHeight v else clientHeight v in
    (rect_top v <? height)%float && gtb (rect_bottom v) 0%float.

(** The body shared by the scroll handler and the timer of line 477: the
    state is the flag [highlightAnimated] and the number of calls of
    [animateNumberTo] so far. *)
Definition maybe_animate (present : bool) (v : view) (st : bool * nat) : bool * nat :=
  let '(highlightAnimated, started) := st in
  if highlightAnimated then st
  else if isInViewport present v then (true, S started)
  else st.

Definition animate_over (present : bool) (views : list view) (st : bool * nat)
    : bool * nat :=
  fold_left (fun st v => maybe_animate present v st) views st.

(** *** The initial default (lines 431-435) *)

Definition set_amount (p : page) (a : string) : page :=
  {| simAmountInput := option_map (fun _ => a) (simAmountInput p);
     simYearSelect := simYearSelect p;
     simResultBox := simResultBox p;
     simFinalAmountEl := simFinalAmountEl p;
     simTotalReturnEl := simTotalReturnEl p;
     simCagrUsedEl := simCagrUsedEl p;
     activeBtn := activeBtn p;
     marketChart := marketChart p |}.

(** The timer of 150 ms: an empty amount becomes "10000", and the
    calculator runs if a category is already active. *)
Definition initial_default (pow_approx : float -> float -> float)
    (toLocaleString : float -> string) (YEARS : list float) (CURRENT_YEAR : float)
    (niftyData : list float) (p : page) : page * list chart :=
  let p :=
    match simAmountInput p with
    | Some EmptyString => set_amount p "10000"
    | _ => p
    end in
  match activeBtn p with
  | Some _ => calculateGrowth pow_approx toLocaleString YEARS CURRENT_YEAR niftyData p
  | None => (p, [])
  end.

(** Three category buttons, two of them marked active. *)
Definition sample_buttons : list category_btn :=
  [ {| btn_cagr := Some "12"%string; btn_active := true;
       btn_aria_checked := Some "true"%string; btn_in_selector := true |};
    {| btn_cagr := Some "8%"%string; btn_active := true;
       btn_aria_checked := None; btn_in_selector := true |};
    {| btn_cagr := None; btn_active := false;
       btn_aria_checked := None; btn_in_selector := true |} ].

(** A lead form as the visitor has filled it in. *)
Definition sample_lead (name phone : string) : lead_dom :=
  {| lead_name := Some {| ctl_value := name; ctl_default := "" |};
     lead_phone := Some {| ctl_value := phone; ctl_default := "" |};
     submitButton := Some {| sb_disabled := false; sb_text := "Submit" |};
     formContainer := Some "block"%string;
     confirmationMessage := Some "none"%string;
     leadModal := Some true;
     popupShown := false |}.

(** Closed goals are settled by evaluation, one conjunct at a time. *)
Ltac evaluate :=
  repeat match goal with |- _ /\ _ => split end; vm_compute; reflexivity.

(** * Facts about binary64 arithmetic *)

Module FloatFacts.

Lemma is_nan_SF (x : float) :
  PrimFloat.is_nan x = true <-> Prim2SF x = S754_nan.
Proof.
  unfold PrimFloat.is_nan. rewrite eqb_spec. unfold SFeqb.
  destruct (Prim2SF x) as [s| s| |s m e]; simpl.
  - split; discriminate.
  - destruct s; simpl; split; discriminate.
  - split; reflexivity.
  - destruct s; rewrite Z.compare_refl, Pcompare_refl; simpl; split; discriminate.
Qed.

Lemma is_nan_false_SF (x : float) :
  PrimFloat.is_nan x = false <-> Prim2SF x <> S754_nan.
Proof.
  rewrite <- is_nan_SF. destruct (PrimFloat.is_nan x); split; congruence.
Qed.

Lemma SFcompare_antisym (x y : spec_float) :
  SFcompare y x = option_map CompOpp (SFcompare x y).
Proof.
  destruct x as [sx| sx| |sx mx ex], y as [sy| sy| |sy my ey]; simpl;
    try reflexivity;
    try (destruct sx; reflexivity);
    try (destruct sy; reflexivity);
    try (destruct sx, sy; reflexivity).
  destruct sx, sy; try reflexivity; f_equal;
    rewrite (Z.compare_antisym ey ex);
    destruct (ey ?= ex) eqn:E; simpl; try reflexivity.
  - rewrite (ZC4 mx my). destruct (Pos.compare_cont Eq my mx); reflexivity.
  - apply ZC4.
Qed.

Lemma SFcompare_refl (x : spec_float) :
  x <> S754_nan -> SFcompare x x = Some Eq.
Proof.
  destruct x as [s| s| |s m e]; simpl; intros H; try congruence.
  - destruct s; reflexivity.
  - destruct s; rewrite Z.compare_refl, Pcompare_refl; reflexivity.
Qed.

Lemma SFcompare_some (x y : spec_float) :
  x <> S754_nan -> y <> S754_nan -> exists c, SFcompare x y = Some c.
Proof.
  destruct x, y; simpl; intros; try congruence; eauto.
Qed.

(** [a <= b] excludes [b < a]. *)
Lemma leb_ltb_false (a b : float) :
  (a <=? b)%float = true -> (b <? a)%float = false.
Proof.
  rewrite leb_spec, ltb_spec. unfold SFleb, SFltb.
  rewrite (SFcompare_antisym (Prim2SF a) (Prim2SF b)).
  destruct (SFcompare (Prim2SF a) (Prim2SF b)) as [[| |]|]; simpl; congruence.
Qed.

(** On Numbers none of which is NaN, [a < b] is the negation of [b <= a]. *)
Lemma ltb_negb_leb (a b : float) :
  PrimFloat.is_nan a = false -> PrimFloat.is_nan b = false ->
  (a <? b)%float = negb (b <=? a)%float.
Proof.
  rewrite !is_nan_false_SF. intros Ha Hb.
  rewrite leb_spec, ltb_spec. unfold SFleb, SFltb.
  rewrite (SFcompare_antisym (Prim2SF a) (Prim2SF b)).
  destruct (SFcompare_some _ _ Ha Hb) as [c ->]. destruct c; reflexivity.
Qed.

Lemma ltb_irrefl (a : float) : (a <? a)%float = false.
Proof.
  rewrite ltb_spec. unfold SFltb.
  destruct (Prim2SF a) as [s| s| |s m e] eqn:E; simpl; try reflexivity.
  - destruct s; reflexivity.
  - destruct s; rewrite Z.compare_refl, Pcompare_refl; reflexivity.
Qed.

(** A finite Number is a zero or has a mantissa and an exponent. *)
Lemma isFinite_SF (x : float) :
  isFinite x = true <->
  (exists s, Prim2SF x = S754_zero s) \/ (exists s m e, Prim2SF x = S754_finite s m e).
Proof.
  unfold isFinite, PrimFloat.is_finite, PrimFloat.is_infinity.
  rewrite negb_true_iff, orb_false_iff, is_nan_false_SF.
  rewrite eqb_spec, abs_spec. unfold SFeqb.
  change (Prim2SF infinity) with (S754_infinity false).
  destruct (Prim2SF x) as [s| s| |s m e]; simpl.
  - split; [eauto | intros _; split; congruence].
  - split; [intros [_ H]; discriminate | intros [[? H]|[? [? [? H]]]]; discriminate].
  - split; [intros [H _]; congruence | intros [[? H]|[? [? [? H]]]]; discriminate].
  - split; [eauto 6 | intros _; split; congruence].
Qed.

Lemma isFinite_not_nan (x : float) :
  isFinite x = true -> PrimFloat.is_nan x = false.
Proof.
  unfold isFinite, PrimFloat.is_finite.
  rewrite negb_true_iff, orb_false_iff. tauto.
Qed.

(** [x - x] is [+0] for a finite [x]. *)
Lemma sub_diag (x : float) : isFinite x = true -> (x - x)%float = zero.
Proof.
  intros H. apply Prim2SF_inj. rewrite sub_spec.
  change (Prim2SF zero) with (S754_zero false).
  apply isFinite_SF in H. destruct H as [[s ->]|[s [m [e ->]]]].
  - destruct s; reflexivity.
  - unfold SF64sub, SFsub. rewrite Z.sub_diag. reflexivity.
Qed.

(** *** Multiplication by one *)

Lemma digits2_pos_shift52 (m : positive) :
  Zpos (digits2_pos (4503599627370496 * m)) = Zpos (digits2_pos m) + 52.
Proof. cbn [Pos.mul digits2_pos]. lia. Qed.

Lemma shr_52 (m : positive) :
  iter_pos shr_1 52 (Build_shr_record (Zpos (4503599627370496 * m)) false false)
  = Build_shr_record (Zpos m) false false.
Proof. reflexivity. Qed.

Lemma SFmul_one (s : bool) (m : positive) (e : Z) :
  bounded prec emax m e = true ->
  SF64mul (S754_finite s m e) (S754_finite false 4503599627370496 (-52))
  = S754_finite s m e.
Proof.
  unfold bounded, canonical_mantissa. rewrite andb_true_iff, Z.eqb_eq, Z.leb_le.
  intros [Hc He].
  unfold SF64mul, SFmul. rewrite xorb_false_r, Pos.mul_comm.
  unfold binary_round_aux, shr_fexp. unfold Zdigits2 at 1.
  rewrite digits2_pos_shift52.
  replace (Zpos (digits2_pos m) + 52 + (e + -52)) with (Zpos (digits2_pos m) + e) by lia.
  rewrite Hc.
  replace (e - (e + -52)) with 52 by lia.
  unfold shr at 1.
  change (shr_record_of_loc (Zpos (4503599627370496 * m)) loc_Exact)
    with (Build_shr_record (Zpos (4503599627370496 * m)) false false).
  rewrite shr_52.
  cbn [shr_m loc_of_shr_record round_nearest_even shr_record_of_loc].
  unfold Zdigits2.
  replace (e + -52 + 52) with e by lia.
  rewrite Hc, Z.sub_diag. cbn [shr shr_m].
  apply Z.leb_le in He. rewrite He. reflexivity.
Qed.

(** [x * 1] is [x], for every Number. *)
Lemma mul_one (x : float) : (x * 1)%float = x.
Proof.
  apply Prim2SF_inj. rewrite mul_spec.
  change (Prim2SF 1) with (S754_finite false 4503599627370496 (-52)).
  pose proof (Prim2SF_valid x) as Hv.
  destruct (Prim2SF x) as [s| s| |s m e].
  - cbn. now rewrite xorb_false_r.
  - cbn. now rewrite xorb_false_r.
  - reflexivity.
  - apply SFmul_one. exact Hv.
Qed.

(** *** Rounding never invents a NaN *)

Lemma shr_1_nonneg (mrs : shr_record) :
  0 <= shr_m mrs -> 0 <= shr_m (shr_1 mrs).
Proof.
  destruct mrs as [m r s']. destruct m as [|p|p]; cbn; intros H; try lia.
  destruct p; cbn; lia.
Qed.

Lemma iter_shr_1_nonneg (p : positive) :
  forall mrs, 0 <= shr_m mrs -> 0 <= shr_m (iter_pos shr_1 p mrs).
Proof.
  induction p as [p IH|p IH|]; intros mrs H; cbn.
  - apply IH, IH, shr_1_nonneg, H.
  - apply IH, IH, H.
  - apply shr_1_nonneg, H.
Qed.

Lemma shr_fexp_nonneg (m e : Z) (l : location) :
  0 <= m -> 0 <= shr_m (fst (shr_fexp prec emax m e l)).
Proof.
  intros H. unfold shr_fexp, shr.
  assert (H0 : 0 <= shr_m (shr_record_of_loc m l))
    by (destruct l as [|[| |]]; exact H).
  destruct (fexp prec emax (Zdigits2 m + e) - e); cbn [fst]; try exact H0.
  apply iter_shr_1_nonneg, H0.
Qed.

Lemma round_nearest_even_nonneg (m : Z) (l : location) :
  0 <= m -> 0 <= round_nearest_even m l.
Proof.
  intros H. destruct l as [|[| |]]; cbn; try lia. destruct (Z.even m); lia.
Qed.

Lemma binary_round_aux_not_nan (sx : bool) (mx ex : Z) (lx : location) :
  0 <= mx -> binary_round_aux prec emax sx mx ex lx <> S754_nan.
Proof.
  intros H. unfold binary_round_aux.
  pose proof (shr_fexp_nonneg mx ex lx H) as H1.
  destruct (shr_fexp prec emax mx ex lx) as [mrs' e']. cbn [fst] in H1.
  pose proof (shr_fexp_nonneg _ e' loc_Exact
                (round_nearest_even_nonneg _ (loc_of_shr_record mrs') H1)) as H2.
  destruct (shr_fexp prec emax
              (round_nearest_even (shr_m mrs') (loc_of_shr_record mrs')) e' loc_Exact)
    as [mrs'' e''].
  cbn [fst] in H2.
  destruct (shr_m mrs'') as [|q|q]; try discriminate; try lia.
  destruct (e'' <=? emax - prec); discriminate.
Qed.

Lemma binary_round_not_nan (sx : bool) (mx : positive) (ex : Z) :
  binary_round prec emax sx mx ex <> S754_nan.
Proof.
  unfold binary_round.
  destruct (shl_align mx ex (fexp prec emax (Zpos (digits2_pos mx) + ex))) as [mz ez].
  apply binary_round_aux_not_nan. lia.
Qed.

Lemma binary_normalize_not_nan (m e : Z) (sz : bool) :
  binary_normalize prec emax m e sz <> S754_nan.
Proof.
  destruct m; cbn; try discriminate; apply binary_round_not_nan.
Qed.

Lemma SF2Prim_not_nan (x : spec_float) :
  x <> S754_nan -> PrimFloat.is_nan (SF2Prim x) = false.
Proof.
  intros H. destruct x as [s| s| |s m e]; try congruence.
  - destruct s; reflexivity.
  - destruct s; reflexivity.
  - apply is_nan_false_SF. unfold SF2Prim.
    set (f := Z.ldexp (of_uint63 (Uint63.of_Z (Zpos m))) e).
    assert (Hf : Prim2SF f <> S754_nan).
    { unfold f. rewrite FloatLemmas.Z_ldexp_spec, of_uint63_spec.
      pose proof (binary_normalize_not_nan
                    (Uint63.to_Z (Uint63.of_Z (Zpos m))) 0 false) as Hn.
      destruct (binary_normalize prec emax _ 0 false) as [s'| s'| |s' m' e'];
        try congruence; try discriminate.
      cbn [SFldexp]. apply binary_round_not_nan. }
    destruct s; [|exact Hf].
    rewrite opp_spec. destruct (Prim2SF f); try discriminate. congruence.
Qed.

Lemma of_Z_not_nan (z : Z) : PrimFloat.is_nan (of_Z z) = false.
Proof. apply SF2Prim_not_nan, binary_normalize_not_nan. Qed.

Lemma opp_not_nan (x : float) :
  PrimFloat.is_nan x = false -> PrimFloat.is_nan (- x)%float = false.
Proof.
  rewrite !is_nan_false_SF, opp_spec. destruct (Prim2SF x); cbn; congruence.
Qed.

(** The difference of two finite Numbers is not NaN. *)
Lemma sub_finite_not_nan (a b : float) :
  isFinite a = true -> isFinite b = true -> PrimFloat.is_nan (a - b)%float = false.
Proof.
  intros Ha Hb. apply is_nan_false_SF. rewrite sub_spec.
  apply isFinite_SF in Ha. apply isFinite_SF in Hb.
  destruct Ha as [[sa ->]|[sa [ma [ea ->]]]], Hb as [[sb ->]|[sb [mb [eb ->]]]];
    cbn [SF64sub SFsub]; try discriminate.
  - destruct sa, sb; discriminate.
  - apply binary_normalize_not_nan.
Qed.

(** Dividing by a zero never gives a finite Number, and neither does a
    product with such a quotient, nor its rounding. *)
Lemma div_zero_not_finite (a b : float) :
  PrimFloat.is_zero b = true -> isFinite (a / b)%float = false.
Proof.
  intros Hb.
  destruct (isFinite (a / b)%float) eqn:E; [|reflexivity]. exfalso.
  apply isFinite_SF in E. rewrite div_spec in E.
  unfold PrimFloat.is_zero in Hb. rewrite eqb_spec in Hb.
  change (Prim2SF zero) with (S754_zero false) in Hb. unfold SFeqb in Hb.
  destruct (Prim2SF b) as [sb| sb| |sb mb eb]; cbn in Hb;
    try discriminate; try (destruct sb; discriminate).
  destruct (Prim2SF a) as [sa| sa| |sa ma ea]; cbn in E;
    destruct E as [[? E]|[? [? [? E]]]]; discriminate.
Qed.

Lemma mul_not_finite (a b : float) :
  isFinite b = false -> isFinite (a * b)%float = false.
Proof.
  intros Hb.
  destruct (isFinite (a * b)%float) eqn:E; [|reflexivity]. exfalso.
  apply isFinite_SF in E. rewrite mul_spec in E.
  assert (Hb' : ~ ((exists s, Prim2SF b = S754_zero s)
                   \/ (exists s m e, Prim2SF b = S754_finite s m e))).
  { intros H. apply isFinite_SF in H. congruence. }
  destruct (Prim2SF b) as [sb| sb| |sb mb eb].
  - apply Hb'. eauto.
  - destruct (Prim2SF a) as [sa| sa| |sa ma ea]; cbn in E;
      destruct E as [[? E]|[? [? [? E]]]]; discriminate.
  - destruct (Prim2SF a) as [sa| sa| |sa ma ea]; cbn in E;
      destruct E as [[? E]|[? [? [? E]]]]; discriminate.
  - apply Hb'. eauto 6.
Qed.

Lemma Math_round_not_finite (x : float) :
  isFinite x = false -> Math_round x = x.
Proof.
  intros H. unfold Math_round.
  destruct (Prim2SF x) as [s| s| |s m e] eqn:E; try reflexivity.
  assert (isFinite x = true) by (apply isFinite_SF; eauto 6). congruence.
Qed.

End FloatFacts.

(** * The benchmark series *)

Section BuildNiftyData.

Lemma compound_shift (rate last : float) (j : nat) :
  compound rate (last * (1 + rate))%float j = compound rate last (S j).
Proof.
  induction j as [|j IH]; [reflexivity|]. cbn [compound] in *. now rewrite IH.
Qed.

Lemma extension_cons (rate last : float) (n : nat) :
  extension rate last (S n)
  = Math_round (last * (1 + rate))%float :: extension rate (last * (1 + rate))%float n.
Proof.
  unfold extension. cbn [seq map compound]. f_equal.
  rewrite <- seq_shift, map_map. apply map_ext. intros j.
  now rewrite compound_shift.
Qed.

(** The loop appends exactly the missing entries. *)
Lemma extend_loop_spec (fuel n : nat) (rate : float) :
  forall last result,
    (n - length result <= fuel)%nat ->
    extend_loop fuel n rate last result
    = result ++ extension rate last (n - length result).
Proof.
  induction fuel as [|fuel IH]; intros last result H; cbn [extend_loop].
  - replace (n - length result)%nat with O by lia. cbn. now rewrite app_nil_r.
  - destruct (Nat.ltb_spec (length result) n) as [Hlt|Hge].
    + rewrite IH by (rewrite length_app; cbn; lia).
      rewrite length_app. cbn [length].
      replace (n - length result)%nat with (S (n - (length result + 1))) by lia.
      rewrite extension_cons, <- app_assoc. reflexivity.
    + replace (n - length result)%nat with O by lia. cbn. now rewrite app_nil_r.
Qed.

Lemma length_extension (rate last : float) (n : nat) :
  length (extension rate last n) = n.
Proof. unfold extension. now rewrite length_map, length_seq. Qed.

Lemma get_last (pre : list float) (p l : float) :
  get (pre ++ [p; l]) (Z.of_nat (length (pre ++ [p; l])) - 1) = Some l.
Proof.
  unfold get. rewrite length_app. cbn [length].
  replace (Z.of_nat (length pre + 2) - 1) with (Z.of_nat (length pre + 1)) by lia.
  destruct (Z.ltb_spec (Z.of_nat (length pre + 1)) 0) as [?|_]; [lia|].
  rewrite Nat2Z.id, nth_error_app2 by lia.
  replace (length pre + 1 - length pre)%nat with 1%nat by lia. reflexivity.
Qed.

Lemma get_prev (pre : list float) (p l : float) :
  get (pre ++ [p; l]) (Z.of_nat (length (pre ++ [p; l])) - 2) = Some p.
Proof.
  unfold get. rewrite length_app. cbn [length].
  replace (Z.of_nat (length pre + 2) - 2) with (Z.of_nat (length pre)) by lia.
  destruct (Z.ltb_spec (Z.of_nat (length pre)) 0) as [?|_]; [lia|].
  rewrite Nat2Z.id, nth_error_app2 by lia.
  rewrite Nat.sub_diag. reflexivity.
Qed.

Lemma gtb_0_truthy (x : float) : gtb x 0%float = true -> truthy x = true.
Proof.
  unfold gtb, truthy. intros H.
  assert (Hn : PrimFloat.is_nan x = false).
  { apply FloatFacts.is_nan_false_SF. intros E.
    rewrite ltb_spec, E in H. discriminate. }
  rewrite Hn, orb_false_r. unfold PrimFloat.is_zero.
  rewrite ltb_spec in H. rewrite eqb_spec.
  change (Prim2SF 0) with (S754_zero false) in H.
  change (Prim2SF zero) with (S754_zero false).
  unfold SFltb in H. unfold SFeqb.
  destruct (Prim2SF x) as [s'| s'| |s' m' e']; cbn in *; try discriminate;
    destruct s'; cbn in *; try discriminate; reflexivity.
Qed.

End BuildNiftyData.

(** C8. When the seed is at least as long as the axis, [buildNiftyData]
    returns the seed cut to the length of the axis, each value rounded to
    the nearest integer. *)
Theorem buildNiftyData_truncates (years seed : list float) :
  (length years <= length seed)%nat ->
  buildNiftyData years seed = map Math_round (firstn (length years) seed).
Proof.
  intros H. unfold buildNiftyData.
  apply Nat.leb_le in H. now rewrite H.
Qed.

Lemma buildNiftyData_truncates_witness :
  (length [2015; 2016]%float <= length [10000.4; 11000.5; 12500]%float)%nat
  /\ buildNiftyData [2015; 2016]%float [10000.4; 11000.5; 12500]%float
     = [10000; 11001]%float.
Proof.
  split; [cbn; lia|].
  rewrite (buildNiftyData_truncates [2015; 2016]%float [10000.4; 11000.5; 12500]%float)
    by (cbn; lia).
  reflexivity.
Defined.

Lemma get_last1 (pre : list float) (l : float) :
  get (pre ++ [l]) (Z.of_nat (length (pre ++ [l])) - 1) = Some l.
Proof.
  unfold get. rewrite length_app. cbn [length].
  replace (Z.of_nat (length pre + 1) - 1) with (Z.of_nat (length pre)) by lia.
  destruct (Z.ltb_spec (Z.of_nat (length pre)) 0) as [?|_]; [lia|].
  rewrite Nat2Z.id, nth_error_app2 by lia.
  rewrite Nat.sub_diag. reflexivity.
Qed.

(** C2, as the code has it.  When the seed is shorter than the axis, the
    result has the length of the axis: the seed values rounded, then one
    entry per missing year, the rounded running value [last * (1 + rate)^j]
    (multiplied step by step, unrounded).  [last] is the final seed value,
    and 10000 when there is none or it is 0 or NaN; [prev] is the value
    before it, and [last] when there is none or it is 0 or NaN; the rate
    is [last / prev - 1] when [prev > 0], and 0.08 when [prev <= 0] or
    that rate is not finite or at most -1.  So a seed of one entry has
    the rate computed from [prev = last], and the empty seed the rate
    0. *)
Theorem buildNiftyData_extends (years seed : list float) :
  (length seed < length years)%nat ->
  let rate_from := fun last prev : float =>
    let r := if gtb prev 0%float then (last / prev - 1)%float else 0.08%float in
    if negb (isFinite r) || (r <=? -1)%float then 0.08%float else r in
  exists last rate : float,
    buildNiftyData years seed
    = map Math_round (seed ++ extension rate last (length years - length seed))
    /\ length (buildNiftyData years seed) = length years
    /\ (seed = [] -> last = 10000%float /\ rate = 0%float)
    /\ (forall pre l,
          seed = pre ++ [l] ->
          last = if PrimFloat.is_zero l || PrimFloat.is_nan l then 10000%float else l)
    /\ (forall l, seed = [l] -> rate = rate_from last last)
    /\ (forall pre p l,
          seed = pre ++ [p; l] ->
          rate = rate_from last
                   (if PrimFloat.is_zero p || PrimFloat.is_nan p then last else p)).
Proof.
  intros H rate_from.
  exists (seed_last seed), (approxCagr_of seed).
  assert (E : buildNiftyData years seed
              = map Math_round
                  (seed ++ extension (approxCagr_of seed) (seed_last seed)
                             (length years - length seed))).
  { unfold buildNiftyData.
    destruct (Nat.leb_spec (length years) (length seed)) as [Hle|_]; [lia|].
    rewrite extend_loop_spec by lia. reflexivity. }
  split; [exact E|]. split.
  { rewrite E, length_map, length_app, length_extension. lia. }
  split; [|split; [|split]].
  - intros ->. split; reflexivity.
  - intros pre l ->. unfold seed_last. rewrite get_last1. cbn [or_else].
    unfold truthy. now destruct (PrimFloat.is_zero l || PrimFloat.is_nan l).
  - intros l ->. unfold approxCagr_of, seed_prev.
    change (get [l] (Z.of_nat (length [l]) - 2)) with (@None float).
    reflexivity.
  - intros pre p l ->. unfold approxCagr_of, seed_prev.
    rewrite get_prev. cbn [or_else]. unfold truthy.
    now destruct (PrimFloat.is_zero p || PrimFloat.is_nan p).
Qed.

Lemma buildNiftyData_extends_witness :
  buildNiftyData [2015; 2016; 2017; 2018]%float [24000; 25000]%float
  = [24000; 25000; 26042; 27127]%float
  /\ buildNiftyData [2015; 2016; 2017]%float [100; 0]%float
     = [100; 0; 1000000]%float.
Proof.
  split.
  - destruct (buildNiftyData_extends [2015; 2016; 2017; 2018]%float
                [24000; 25000]%float) as [last [rate [E [_ [_ [L [_ R]]]]]]];
      [vm_compute; lia|].
    specialize (L [24000%float] 25000%float eq_refl).
    specialize (R [] 24000%float 25000%float eq_refl).
    vm_compute in L. subst last. vm_compute in R. subst rate.
    rewrite E. vm_compute. reflexivity.
  - destruct (buildNiftyData_extends [2015; 2016; 2017]%float
                [100; 0]%float) as [last [rate [E [_ [_ [L [_ R]]]]]]];
      [vm_compute; lia|].
    specialize (L [100%float] 0%float eq_refl).
    specialize (R [] 100%float 0%float eq_refl).
    vm_compute in L. subst last. vm_compute in R. subst rate.
    rewrite E. vm_compute. reflexivity.
Defined.

(** C2 as stated fails on a seed of one entry: the code's rate is
    [5000 / 5000 - 1 = 0], not the default 0.08, so the appended value is
    5000 and not 5400. *)
Lemma buildNiftyData_short_seed_rate :
  let years := [2015; 2016]%float in
  let seed := [5000]%float in
  (length seed < length years)%nat
  /\ approxCagr_of seed = 0%float
  /\ spec_rate seed = 0.08%float
  /\ buildNiftyData years seed = [5000; 5000]%float
  /\ spec_buildBenchmarkSeries years seed = [5000; 5400]%float
  /\ buildNiftyData years seed <> spec_buildBenchmarkSeries years seed.
Proof.
  cbv zeta.
  split; [vm_compute; lia|].
  split; [vm_compute; reflexivity|].
  split; [vm_compute; reflexivity|].
  split; [vm_compute; reflexivity|].
  split; [vm_compute; reflexivity|].
  intros H.
  apply (f_equal (fun l => match l with [_; y] => (y <? 5200)%float | _ => false end)) in H.
  vm_compute in H. discriminate.
Qed.

(** * The projection series *)

Section Projection.

Variable pow_approx : float -> float -> float.

Lemma Math_pow_zero (base : float) : Math_pow pow_approx base zero = 1%float.
Proof. reflexivity. Qed.

(** The entry of the start year itself. *)
Lemma userEntry_start (principal startYear rate : float) :
  isFinite principal = true -> isFinite startYear = true ->
  userEntry pow_approx principal startYear rate startYear
  = Some (Math_round principal).
Proof.
  intros Hp Hs. unfold userEntry.
  rewrite FloatFacts.ltb_irrefl, (FloatFacts.sub_diag _ Hs), Math_pow_zero.
  rewrite FloatFacts.mul_one, Hp. reflexivity.
Qed.

End Projection.

(** C6. [computeUserSeries] is aligned to the axis: one entry per year;
    the entry of a year before the start year is [null]; the entry of a
    year from the start year on is
    [round(principal * (1 + rate)^(year - startYear))], and [null] when
    that product is not finite. *)
Theorem computeUserSeries_entries (pow_approx : float -> float -> float)
    (YEARS : list float) (principal startYear rate : float) :
  let series := computeUserSeries pow_approx YEARS principal startYear rate in
  length series = length YEARS
  /\ forall i year,
       nth_error YEARS i = Some year ->
       ((year <? startYear)%float = true -> nth_error series i = Some None)
       /\ (geb year startYear = true ->
           let val :=
             (principal * Math_pow pow_approx (1 + rate) (year - startYear))%float in
           nth_error series i
           = Some (if isFinite val then Some (Math_round val) else None)).
Proof.
  intros series. split.
  - unfold series, computeUserSeries. apply length_map.
  - intros i year Hy. unfold series, computeUserSeries.
    rewrite nth_error_map, Hy. cbn [option_map]. unfold userEntry. split.
    + intros ->. reflexivity.
    + intros Hge. unfold geb in Hge. cbv zeta.
      rewrite (FloatFacts.leb_ltb_false _ _ Hge). reflexivity.
Qed.

Lemma computeUserSeries_entries_witness :
  nth_error (computeUserSeries pow_repeat (YEARS_of 2025) 10000 2020 0.1) 10
  = Some (Some 16105%float)
  /\ nth_error (computeUserSeries pow_repeat (YEARS_of 2025) 10000 2020 0.1) 4
     = Some None.
Proof.
  pose proof (computeUserSeries_entries pow_repeat (YEARS_of 2025) 10000 2020 0.1) as H.
  cbv zeta in H. destruct H as [_ H]. split.
  - destruct (H 10%nat 2025%float) as [_ H2]; [reflexivity|].
    rewrite H2 by reflexivity. vm_compute. reflexivity.
  - destruct (H 4%nat 2019%float) as [H1 _]; [reflexivity|].
    apply H1. reflexivity.
Defined.

(** C10. For a finite principal and an axis that contains the (finite)
    start year, the entry of the start year is [round(principal)],
    whatever the rate: the exponent is 0 there. *)
Theorem computeUserSeries_starts_at_principal (pow_approx : float -> float -> float)
    (YEARS : list float) (principal startYear rate : float) (i : nat) :
  isFinite principal = true ->
  isFinite startYear = true ->
  nth_error YEARS i = Some startYear ->
  nth_error (computeUserSeries pow_approx YEARS principal startYear rate) i
  = Some (Some (Math_round principal)).
Proof.
  intros Hp Hs Hy. unfold computeUserSeries.
  rewrite nth_error_map, Hy. cbn [option_map].
  now rewrite userEntry_start.
Qed.

Lemma computeUserSeries_starts_at_principal_witness :
  nth_error (computeUserSeries pow_repeat (YEARS_of 2025) 12345.6 2020 nan) 5
  = Some (Some 12346%float).
Proof.
  rewrite (computeUserSeries_starts_at_principal pow_repeat (YEARS_of 2025)
             12345.6 2020 nan 5); reflexivity.
Defined.

(** * The recalculation *)

Section Recalculation.

Variable pow_approx : float -> float -> float.
Variable toLocaleString : float -> string.
Variable YEARS : list float.
Variable CURRENT_YEAR : float.
Variable niftyData : list float.

Let recalc := calculateGrowth pow_approx toLocaleString YEARS CURRENT_YEAR niftyData.

(** Without the amount input, the year select or the result box, a run
    does nothing. *)
Lemma calculateGrowth_missing (p : page) :
  simAmountInput p = None \/ simYearSelect p = None \/ simResultBox p = None ->
  recalc p = (p, []).
Proof.
  unfold recalc, calculateGrowth.
  destruct (simAmountInput p), (simYearSelect p), (simResultBox p);
    intros [H|[H|H]]; congruence.
Qed.

(** A run that fails the gate. *)
Lemma calculateGrowth_suppressed (p : page) (amount year box : string) :
  simAmountInput p = Some amount ->
  simYearSelect p = Some year ->
  simResultBox p = Some box ->
  gate CURRENT_YEAR amount year (activeBtn p) = false ->
  let scaled :=
    scaledNiftyData YEARS niftyData (safeParseNumber (VString amount)) (parseInt10 year) in
  recalc p = (suppressed_page YEARS p scaled,
              [marketChart (suppressed_page YEARS p scaled)]).
Proof.
  destruct p as [a y b f t c act ch].
  cbn [simAmountInput simYearSelect simResultBox activeBtn].
  intros [= ->] [= ->] [= ->] G.
  unfold recalc, calculateGrowth.
  cbn [simAmountInput simYearSelect simResultBox activeBtn marketChart set_chart].
  unfold gate in G.
  destruct act as [attr|]; [|reflexivity].
  cbv zeta in G.
  destruct (isFinite (safeParseNumber (VString amount)));
    [|reflexivity].
  destruct (safeParseNumber (VString amount) <? 1000)%float;
    [reflexivity|].
  destruct (isFinite (parseInt10 year)); [|reflexivity].
  cbn [negb orb andb] in G |- *.
  destruct (isFinite (parseCagr (dataset_cagr attr))); [|reflexivity].
  cbn [negb andb] in G |- *.
  destruct (CURRENT_YEAR - parseInt10 year <? 0)%float; [reflexivity|].
  discriminate.
Qed.

(** A run that passes it. *)
Lemma calculateGrowth_shown (p : page) (amount year box : string) :
  simAmountInput p = Some amount ->
  simYearSelect p = Some year ->
  simResultBox p = Some box ->
  gate CURRENT_YEAR amount year (activeBtn p) = true ->
  exists attr, activeBtn p = Some attr /\
  let principal := safeParseNumber (VString amount) in
  let startYear := parseInt10 year in
  let cagr := parseCagr (dataset_cagr attr) in
  let finalAmount :=
    (principal * Math_pow pow_approx (1 + cagr) (CURRENT_YEAR - startYear))%float in
  let shown :=
    shown_page p
      (scaledNiftyData YEARS niftyData principal startYear)
      (computeUserSeries pow_approx YEARS principal startYear cagr)
      ("₹" ++ toLocaleString (Math_round finalAmount))%string
      (toFixed ((finalAmount - principal) / principal * 100)%float 1 ++ "%")%string
      (toFixed (cagr * 100)%float 2 ++ "%")%string in
  recalc p = (shown, [marketChart shown; marketChart shown]).
Proof.
  destruct p as [a y b f t c act ch].
  cbn [simAmountInput simYearSelect simResultBox activeBtn].
  intros [= ->] [= ->] [= ->] G.
  unfold gate in G. destruct act as [attr|]; [|discriminate].
  exists attr. split; [reflexivity|]. cbv zeta in G |- *.
  unfold recalc, calculateGrowth.
  cbn [simAmountInput simYearSelect simResultBox activeBtn marketChart set_chart].
  destruct (isFinite (safeParseNumber (VString amount))); [|discriminate].
  destruct (safeParseNumber (VString amount) <? 1000)%float; [discriminate|].
  destruct (isFinite (parseInt10 year)); [|discriminate].
  cbn [negb orb andb] in G |- *.
  destruct (isFinite (parseCagr (dataset_cagr attr))); [|discriminate].
  cbn [negb andb] in G |- *.
  destruct (CURRENT_YEAR - parseInt10 year <? 0)%float; [discriminate|].
  reflexivity.
Qed.

(** The gate in the words of the specification. *)
Lemma gate_iff (amount year : string) (attr : option string) :
  isFinite CURRENT_YEAR = true ->
  let principal := safeParseNumber (VString amount) in
  let startYear := parseInt10 year in
  gate CURRENT_YEAR amount year (Some attr) = true
  <-> (isFinite principal = true /\ geb principal 1000%float = true
       /\ isFinite startYear = true
       /\ isFinite (parseCagr (dataset_cagr attr)) = true
       /\ geb (CURRENT_YEAR - startYear)%float 0%float = true).
Proof.
  intros Hc principal startYear. unfold gate, geb. fold principal startYear.
  rewrite !andb_true_iff, !negb_true_iff.
  split.
  - intros [[[[Hp Hlt] Hs] Hr] Hd]. repeat split; try assumption.
    + rewrite FloatFacts.ltb_negb_leb in Hlt
        by (try reflexivity; now apply FloatFacts.isFinite_not_nan).
      now apply negb_false_iff in Hlt.
    + rewrite FloatFacts.ltb_negb_leb in Hd
        by (try reflexivity; now apply FloatFacts.sub_finite_not_nan).
      now apply negb_false_iff in Hd.
  - intros [Hp [Hge [Hs [Hr Hd]]]]. repeat split; try assumption.
    + now apply FloatFacts.leb_ltb_false.
    + now apply FloatFacts.leb_ltb_false.
Qed.

Lemma Forall_mapi_from {A B : Type} (P : B -> Prop) (f : nat -> A -> B) (l : list A) :
  forall i, (forall j x, P (f j x)) -> Forall P (mapi_from f i l).
Proof.
  induction l as [|x l IH]; intros i H; cbn; constructor; auto.
Qed.

End Recalculation.

(** C9. The recalculation is idempotent: a second run on the page the
    first one left gives the same page (projection series, rescaled
    benchmark, summary texts) and draws the same charts. *)
Theorem calculateGrowth_idempotent (pow_approx : float -> float -> float)
    (toLocaleString : float -> string) (YEARS : list float) (CURRENT_YEAR : float)
    (niftyData : list float) (p : page) :
  calculateGrowth pow_approx toLocaleString YEARS CURRENT_YEAR niftyData
    (fst (calculateGrowth pow_approx toLocaleString YEARS CURRENT_YEAR niftyData p))
  = calculateGrowth pow_approx toLocaleString YEARS CURRENT_YEAR niftyData p.
Proof.
  destruct (simAmountInput p) as [amount|] eqn:Ea;
    [|rewrite (calculateGrowth_missing _ _ _ _ _ p) by auto; cbn [fst];
      apply calculateGrowth_missing; auto].
  destruct (simYearSelect p) as [year|] eqn:Ey;
    [|rewrite (calculateGrowth_missing _ _ _ _ _ p) by auto; cbn [fst];
      apply calculateGrowth_missing; auto].
  destruct (simResultBox p) as [box|] eqn:Eb;
    [|rewrite (calculateGrowth_missing _ _ _ _ _ p) by auto; cbn [fst];
      apply calculateGrowth_missing; auto].
  destruct (gate CURRENT_YEAR amount year (activeBtn p)) eqn:G.
  - destruct (calculateGrowth_shown pow_approx toLocaleString YEARS CURRENT_YEAR
                niftyData p amount year box Ea Ey Eb G) as [attr [Eact E]].
    cbv zeta in E. rewrite E. cbn [fst].
    match goal with |- context [shown_page p ?a ?b ?c ?d ?e] =>
      set (q := shown_page p a b c d e) end.
    assert (Gq : gate CURRENT_YEAR amount year (activeBtn q) = true) by exact G.
    destruct (calculateGrowth_shown pow_approx toLocaleString YEARS CURRENT_YEAR
                niftyData q amount year "block"%string Ea Ey eq_refl Gq)
      as [attr' [Eact' E']].
    assert (attr' = attr) by (cbn in Eact'; congruence). subst attr'.
    cbv zeta in E'. rewrite E'.
    match goal with |- (?x, _) = (?y, _) => assert (Exy : x = y) end.
    { unfold q, shown_page. cbn [simAmountInput simYearSelect simResultBox
        simFinalAmountEl simTotalReturnEl simCagrUsedEl activeBtn].
      destruct (simFinalAmountEl p), (simTotalReturnEl p), (simCagrUsedEl p);
        reflexivity. }
    rewrite Exy. reflexivity.
  - pose proof (calculateGrowth_suppressed pow_approx toLocaleString YEARS CURRENT_YEAR
                  niftyData p amount year box Ea Ey Eb G) as E.
    cbv zeta in E. rewrite E. cbn [fst].
    match goal with |- context [suppressed_page YEARS p ?a] =>
      set (q := suppressed_page YEARS p a) end.
    assert (Gq : gate CURRENT_YEAR amount year (activeBtn q) = false) by exact G.
    pose proof (calculateGrowth_suppressed pow_approx toLocaleString YEARS CURRENT_YEAR
                  niftyData q amount year "none"%string Ea Ey eq_refl Gq) as E'.
    cbv zeta in E'. rewrite E'. reflexivity.
Qed.

(** On a page whose year select holds one of its options or nothing, the
    start year is finite exactly when it is a year of the axis. *)
Lemma select_year_on_axis (YEARS : list float) (year : string) :
  forallb axis_year YEARS = true ->
  year = ""%string \/ In year (year_options YEARS) ->
  (isFinite (parseInt10 year) = true <-> In (parseInt10 year) YEARS).
Proof.
  intros Ha Hs. rewrite forallb_forall in Ha. split.
  - intros F. destruct Hs as [->|Hs]; [discriminate|].
    apply in_map_iff in Hs. destruct Hs as [y [<- Hy]].
    specialize (Ha y Hy). apply andb_true_iff in Ha. destruct Ha as [_ Ha].
    apply FloatAxioms.Leibniz.eqb_spec in Ha. now rewrite Ha.
  - intros Hin. specialize (Ha _ Hin). apply andb_true_iff in Ha. tauto.
Qed.

(** The axis the script builds consists of such years, for every current
    year up to 2050. *)
Lemma firstn_seq_le (a n m : nat) :
  (n <= m)%nat -> firstn n (seq a m) = seq a n.
Proof.
  revert a m. induction n as [|n IH]; intros a m H; [reflexivity|].
  destruct m as [|m]; [lia|]. cbn. f_equal. apply IH. lia.
Qed.

Lemma YEARS_of_prefix (cy cy' : Z) :
  cy <= cy' ->
  YEARS_of cy = firstn (Z.to_nat (cy - 2015 + 1)) (YEARS_of cy').
Proof.
  intros H. unfold YEARS_of.
  rewrite firstn_map, firstn_seq_le by lia. reflexivity.
Qed.

Lemma forallb_firstn {A : Type} (f : A -> bool) (n : nat) (l : list A) :
  forallb f l = true -> forallb f (firstn n l) = true.
Proof.
  rewrite !forallb_forall. intros H x Hx. apply H.
  rewrite <- (firstn_skipn n l). apply in_or_app. now left.
Qed.

Lemma YEARS_of_axis_years (cy : Z) :
  cy <= 2050 -> forallb axis_year (YEARS_of cy) = true.
Proof.
  intros H. rewrite (YEARS_of_prefix cy 2050 H).
  apply forallb_firstn. vm_compute. reflexivity.
Qed.

(** C1, as the code has it.  On a page that has the amount input, the
    year select and the result box, and whose year select holds one of its
    options (the years of the axis) or nothing, a run shows the result box
    and the projection series exactly when a category is active, the
    principal is a finite Number of at least 1000, the start year parses
    to a year of the axis, the rate is finite and the duration is at least
    0; otherwise the result box is hidden, the projection series is
    replaced by an all-[null] series and hidden, and the summary texts are
    left as they were.  In either case the benchmark series is replaced by
    the rescaled one, which line 370 stores before the gate is tested. *)
Theorem calculateGrowth_gate (pow_approx : float -> float -> float)
    (toLocaleString : float -> string) (YEARS : list float) (CURRENT_YEAR : float)
    (niftyData : list float) (p : page) (amount year box : string) :
  simAmountInput p = Some amount ->
  simYearSelect p = Some year ->
  simResultBox p = Some box ->
  isFinite CURRENT_YEAR = true ->
  forallb axis_year YEARS = true ->
  year = ""%string \/ In year (year_options YEARS) ->
  let principal := safeParseNumber (VString amount) in
  let startYear := parseInt10 year in
  let passes :=
    exists attr,
      activeBtn p = Some attr
      /\ isFinite principal = true /\ geb principal 1000%float = true
      /\ In startYear YEARS
      /\ isFinite (parseCagr (dataset_cagr attr)) = true
      /\ geb (CURRENT_YEAR - startYear)%float 0%float = true in
  let p' := fst (calculateGrowth pow_approx toLocaleString YEARS CURRENT_YEAR niftyData p) in
  (simResultBox p' = Some "block"%string <-> passes)
  /\ (forall attr, passes -> activeBtn p = Some attr ->
        user_hidden (marketChart p') = false
        /\ user_data (marketChart p')
           = computeUserSeries pow_approx YEARS principal startYear
               (parseCagr (dataset_cagr attr)))
  /\ (~ passes ->
        simResultBox p' = Some "none"%string
        /\ user_hidden (marketChart p') = true
        /\ user_data (marketChart p') = map (fun _ => None) YEARS
        /\ simFinalAmountEl p' = simFinalAmountEl p
        /\ simTotalReturnEl p' = simTotalReturnEl p
        /\ simCagrUsedEl p' = simCagrUsedEl p)
  /\ nifty_data (marketChart p')
     = scaledNiftyData YEARS niftyData principal startYear.
Proof.
  intros Ea Ey Eb Hc Hax Hsel principal startYear passes p'.
  pose proof (select_year_on_axis YEARS year Hax Hsel) as Hy.
  fold startYear in Hy.
  assert (GP : gate CURRENT_YEAR amount year (activeBtn p) = true <-> passes).
  { unfold passes. destruct (activeBtn p) as [attr|] eqn:Eact.
    - rewrite (gate_iff CURRENT_YEAR amount year attr Hc).
      fold principal startYear. rewrite Hy. split.
      + intros H. exists attr. split; [reflexivity|exact H].
      + intros [attr' [[= <-] H]]. exact H.
    - cbn. split; [discriminate|]. intros [attr' [H _]]. discriminate. }
  destruct (gate CURRENT_YEAR amount year (activeBtn p)) eqn:G.
  - destruct (calculateGrowth_shown pow_approx toLocaleString YEARS CURRENT_YEAR
                niftyData p amount year box Ea Ey Eb G) as [attr [Eact E]].
    cbv zeta in E. unfold p'. rewrite E. cbn [fst].
    split; [|split; [|split; [|reflexivity]]].
    + split; [intros _; now apply GP | reflexivity].
    + intros attr' _ Eact'. assert (attr' = attr) by congruence. subst attr'.
      split; reflexivity.
    + intros N. exfalso. apply N, GP. reflexivity.
  - pose proof (calculateGrowth_suppressed pow_approx toLocaleString YEARS CURRENT_YEAR
                  niftyData p amount year box Ea Ey Eb G) as E.
    cbv zeta in E. unfold p'. rewrite E. cbn [fst].
    split; [|split; [|split; [|reflexivity]]].
    + split; [discriminate|]. intros H. apply GP in H. discriminate.
    + intros attr H. apply GP in H. discriminate.
    + intros _. repeat split; reflexivity.
Qed.

Lemma calculateGrowth_gate_witness :
  let p := sample_page "10000" "2015" (Some (Some "12"%string)) 2025 in
  let p' := fst (calculateGrowth_in pow_repeat enIN 2025 p) in
  simResultBox p' = Some "block"%string
  /\ user_hidden (marketChart p') = false.
Proof.
  cbv zeta.
  pose proof (calculateGrowth_gate pow_repeat enIN (YEARS_of 2025) (of_Z 2025)
                (niftyData_of 2025)
                (sample_page "10000" "2015" (Some (Some "12"%string)) 2025)
                "10000" "2015" "none") as H.
  cbv zeta in H.
  destruct H as [[_ H1] [H2 _]]; try reflexivity.
  { right. vm_compute. tauto. }
  assert (P : exists attr,
             Some (Some "12"%string) = Some attr
             /\ isFinite (safeParseNumber (VString "10000")) = true
             /\ geb (safeParseNumber (VString "10000")) 1000 = true
             /\ In (parseInt10 "2015") (YEARS_of 2025)
             /\ isFinite (parseCagr (dataset_cagr attr)) = true
             /\ geb (of_Z 2025 - parseInt10 "2015")%float 0 = true).
  { exists (Some "12"%string).
    split; [reflexivity|]. split; [vm_compute; reflexivity|].
    split; [vm_compute; reflexivity|]. split; [vm_compute; tauto|].
    split; vm_compute; reflexivity. }
  split.
  - exact (H1 P).
  - exact (proj1 (H2 (Some "12"%string) P eq_refl)).
Defined.

(** C1 as stated fails on its last clause: the benchmark series is
    replaced before the gate is tested.  With the amount "abc" the run
    fails the gate and hides the result, yet the benchmark data it leaves
    (and draws) is no longer the one it found: every entry is NaN. *)
Lemma calculateGrowth_rescales_before_gate :
  let p := sample_page "abc" "2015" (Some (Some "12"%string)) 2025 in
  let r := calculateGrowth_in pow_repeat enIN 2025 p in
  gate (of_Z 2025) "abc" "2015" (activeBtn p) = false
  /\ simResultBox (fst r) = Some "none"%string
  /\ nifty_data (marketChart p) = map Some (niftyData_of 2025)
  /\ nifty_data (marketChart (fst r)) = map (fun _ => Some nan) (YEARS_of 2025)
  /\ nifty_data (marketChart (fst r)) <> nifty_data (marketChart p)
  /\ snd r = [marketChart (fst r)].
Proof.
  cbv zeta.
  split; [vm_compute; reflexivity|].
  split; [vm_compute; reflexivity|].
  split; [vm_compute; reflexivity|].
  split; [vm_compute; reflexivity|].
  split; [|vm_compute; reflexivity].
  intros H.
  apply (f_equal (fun l => match l with
                           | Some x :: _ => PrimFloat.is_nan x
                           | _ => false
                           end)) in H.
  vm_compute in H. discriminate.
Qed.

Lemma length_append (a b : string) :
  String.length (a ++ b) = (String.length a + String.length b)%nat.
Proof. induction a as [|c a IH]; cbn; [reflexivity|now rewrite IH]. Qed.

Lemma length_zeros (n : nat) : String.length (zeros n) = n.
Proof. induction n as [|n IH]; cbn; [reflexivity|now rewrite IH]. Qed.

Lemma length_substring (s : string) (n m : nat) :
  (n + m <= String.length s)%nat -> String.length (substring n m s) = m.
Proof.
  revert n m. induction s as [|c s IH]; intros n m H; cbn in H.
  - assert (n = O) by lia. assert (m = O) by lia. subst. reflexivity.
  - destruct n as [|n]; cbn.
    + destruct m as [|m]; cbn; [reflexivity|]. f_equal. apply (IH O m). lia.
    + apply IH. lia.
Qed.

Lemma all_digits_append (a b : string) :
  all_digits (a ++ b) = all_digits a && all_digits b.
Proof.
  induction a as [|c a IH]; cbn; [reflexivity|].
  rewrite IH. now rewrite andb_assoc.
Qed.

Lemma all_digits_zeros (n : nat) : all_digits (zeros n) = true.
Proof. induction n as [|n IH]; [reflexivity|exact IH]. Qed.

Lemma all_digits_substring (s : string) (n m : nat) :
  all_digits s = true -> all_digits (substring n m s) = true.
Proof.
  revert n m. induction s as [|c s IH]; intros n m H.
  - destruct n, m; reflexivity.
  - cbn in H. apply andb_true_iff in H. destruct H as [Hc Hs].
    destruct n as [|n]; cbn.
    + destruct m as [|m]; cbn; [reflexivity|].
      rewrite Hc. apply (IH O m Hs).
    + apply IH, Hs.
Qed.

Lemma all_digits_string_of_uint (d : Decimal.uint) :
  all_digits (NilEmpty.string_of_uint d) = true.
Proof. induction d; cbn; auto. Qed.

Lemma all_digits_digits_of_Z (n : Z) : all_digits (digits_of_Z n) = true.
Proof.
  unfold digits_of_Z, NilZero.string_of_uint.
  destruct (N.to_uint (Z.to_N n)) eqn:E; try reflexivity;
    rewrite <- E; apply all_digits_string_of_uint.
Qed.

Lemma split_at_point_digits (a b : string) :
  all_digits a = true -> split_at_point (a ++ String "." b) = Some (a, b).
Proof.
  induction a as [|c a IH]; intros H; [reflexivity|].
  cbn in H. apply andb_true_iff in H. destruct H as [Hc Ha].
  cbn [append split_at_point].
  destruct (c =? ".")%char eqn:P.
  - apply Ascii.eqb_eq in P. subst c. discriminate.
  - rewrite (IH Ha). reflexivity.
Qed.

Lemma fixed_point_intro (neg : bool) (a b : string) (f : nat) :
  a <> EmptyString -> all_digits a = true -> all_digits b = true ->
  String.length b = f ->
  fixed_point ((if neg then "-" else "") ++ a ++ "." ++ b) f = true.
Proof.
  intros Ha Da Db Lb. unfold fixed_point.
  assert (E : match ((if neg then "-" else "") ++ a ++ "." ++ b)%string with
              | String c r => if (c =? "-")%char then r
                              else ((if neg then "-" else "") ++ a ++ "." ++ b)%string
              | EmptyString => ((if neg then "-" else "") ++ a ++ "." ++ b)%string
              end = (a ++ "." ++ b)%string).
  { destruct neg; [reflexivity|]. cbn [append].
    destruct a as [|c a]; [congruence|]. cbn [append].
    destruct (c =? "-")%char eqn:P; [|reflexivity].
    apply Ascii.eqb_eq in P. subst c. discriminate. }
  cbv zeta. rewrite E.
  change (a ++ "." ++ b)%string with (a ++ String "." b)%string.
  rewrite (split_at_point_digits a b Da).
  rewrite Da, Db, Lb, Nat.eqb_refl.
  destruct a; [congruence|reflexivity].
Qed.

(** [toFixed] of a finite Number below 1e21 in magnitude has exactly the
    digits asked for after the point. *)
Lemma toFixed_fixed_point (x : float) (f : nat) :
  isFinite x = true -> (1e21 <=? abs x)%float = false -> f <> O ->
  fixed_point (toFixed x f) f = true.
Proof.
  intros F B Hf. unfold toFixed.
  apply FloatFacts.isFinite_SF in F. destruct F as [[s E]|[s [m [e E]]]]; rewrite E.
  - destruct f as [|f]; [congruence|]. cbn [Nat.eqb].
    apply (fixed_point_intro false "0" (zeros (S f)));
      [discriminate|reflexivity|apply all_digits_zeros|apply length_zeros].
  - rewrite B.
    destruct (scaled (Zpos m) e (Z.of_nat f)) as [a b].
    cbv zeta.
    destruct f as [|f]; [congruence|]. cbn [Nat.eqb].
    set (ds0 := digits_of_Z ((2 * a + b) / (2 * b))).
    set (ds := (zeros (S (S f) - String.length ds0) ++ ds0)%string).
    assert (L : (S (S f) <= String.length ds)%nat).
    { unfold ds. rewrite length_append, length_zeros. lia. }
    assert (D : all_digits ds = true).
    { unfold ds. rewrite all_digits_append, all_digits_zeros.
      apply all_digits_digits_of_Z. }
    pose proof (fixed_point_intro s
                  (substring 0 (String.length ds - S f) ds)
                  (substring (String.length ds - S f) (S f) ds) (S f)) as I.
    destruct s; apply I.
    all: try (apply all_digits_substring, D).
    all: try (apply length_substring; lia).
    all: intros N; apply (f_equal String.length) in N;
      rewrite length_substring in N by lia;
      change (String.length EmptyString) with O in N; lia.
Qed.

(** Otherwise [toFixed] gives the text of the Number itself. *)
Lemma toFixed_not_fixed (x : float) (f : nat) :
  isFinite x = false \/ (1e21 <=? abs x)%float = true ->
  toFixed x f = Number_toString x.
Proof.
  intros H. unfold toFixed.
  destruct (Prim2SF x) as [s| s| |s m e] eqn:E; try reflexivity.
  - exfalso. destruct H as [H|H].
    + assert (F : isFinite x = true) by (apply FloatFacts.isFinite_SF; eauto). congruence.
    + rewrite leb_spec, abs_spec, E in H. vm_compute in H. discriminate.
  - destruct H as [H|H].
    + assert (F : isFinite x = true) by (apply FloatFacts.isFinite_SF; eauto 6). congruence.
    + rewrite H. reflexivity.
Qed.

(** C7, as the code has it.  With an active category, a principal of at
    least 1000, a finite start year and a finite rate, the summary is
    suppressed exactly when [duration = CURRENT_YEAR - startYear] is
    negative; otherwise the final amount
    [principal * (1 + rate)^duration] is shown rounded, as a localized
    currency string, the total return
    [(finalAmount - principal) / principal * 100] as [toFixed(1)] gives it
    and the rate times 100 as [toFixed(2)] gives it: with exactly one and
    two decimal places when the value is finite and below 1e21 in
    magnitude, and as the text of the Number itself otherwise. *)
Theorem calculateGrowth_summary (pow_approx : float -> float -> float)
    (toLocaleString : float -> string) (YEARS : list float) (CURRENT_YEAR : float)
    (niftyData : list float) (p : page) (amount year box : string)
    (attr : option string) :
  simAmountInput p = Some amount ->
  simYearSelect p = Some year ->
  simResultBox p = Some box ->
  activeBtn p = Some attr ->
  let principal := safeParseNumber (VString amount) in
  let startYear := parseInt10 year in
  let rate := parseCagr (dataset_cagr attr) in
  let duration := (CURRENT_YEAR - startYear)%float in
  isFinite principal = true ->
  geb principal 1000%float = true ->
  isFinite startYear = true ->
  isFinite rate = true ->
  let p' := fst (calculateGrowth pow_approx toLocaleString YEARS CURRENT_YEAR niftyData p) in
  let finalAmount := (principal * Math_pow pow_approx (1 + rate) duration)%float in
  let totalReturnPct := ((finalAmount - principal) / principal * 100)%float in
  let rateUsedPct := (rate * 100)%float in
  ((duration <? 0)%float = true <-> simResultBox p' = Some "none"%string)
  /\ ((duration <? 0)%float = true ->
        simFinalAmountEl p' = simFinalAmountEl p
        /\ simTotalReturnEl p' = simTotalReturnEl p
        /\ simCagrUsedEl p' = simCagrUsedEl p)
  /\ ((duration <? 0)%float = false ->
        simResultBox p' = Some "block"%string
        /\ simFinalAmountEl p'
           = option_map (fun _ => ("₹" ++ toLocaleString (Math_round finalAmount))%string)
               (simFinalAmountEl p)
        /\ simTotalReturnEl p'
           = option_map (fun _ => (toFixed totalReturnPct 1 ++ "%")%string)
               (simTotalReturnEl p)
        /\ simCagrUsedEl p'
           = option_map (fun _ => (toFixed rateUsedPct 2 ++ "%")%string)
               (simCagrUsedEl p))
  /\ (isFinite totalReturnPct = true -> (1e21 <=? abs totalReturnPct)%float = false ->
        fixed_point (toFixed totalReturnPct 1) 1 = true)
  /\ (isFinite rateUsedPct = true -> (1e21 <=? abs rateUsedPct)%float = false ->
        fixed_point (toFixed rateUsedPct 2) 2 = true)
  /\ (isFinite totalReturnPct = false \/ (1e21 <=? abs totalReturnPct)%float = true ->
        toFixed totalReturnPct 1 = Number_toString totalReturnPct)
  /\ (isFinite rateUsedPct = false \/ (1e21 <=? abs rateUsedPct)%float = true ->
        toFixed rateUsedPct 2 = Number_toString rateUsedPct).
Proof.
  intros Ea Ey Eb Eact principal startYear rate duration Hp Hge Hs Hr p'
         finalAmount totalReturnPct rateUsedPct.
  assert (G : gate CURRENT_YEAR amount year (activeBtn p) = negb (duration <? 0)%float).
  { rewrite Eact. unfold gate. fold principal startYear rate duration.
    unfold geb in Hge.
    rewrite Hp, Hs, Hr, (FloatFacts.leb_ltb_false _ _ Hge). reflexivity. }
  assert (T : (isFinite totalReturnPct = true ->
               (1e21 <=? abs totalReturnPct)%float = false ->
               fixed_point (toFixed totalReturnPct 1) 1 = true)
              /\ (isFinite rateUsedPct = true ->
                  (1e21 <=? abs rateUsedPct)%float = false ->
                  fixed_point (toFixed rateUsedPct 2) 2 = true)
              /\ (isFinite totalReturnPct = false
                  \/ (1e21 <=? abs totalReturnPct)%float = true ->
                  toFixed totalReturnPct 1 = Number_toString totalReturnPct)
              /\ (isFinite rateUsedPct = false
                  \/ (1e21 <=? abs rateUsedPct)%float = true ->
                  toFixed rateUsedPct 2 = Number_toString rateUsedPct)).
  { split; [|split; [|split]].
    - intros F B. apply toFixed_fixed_point; [exact F|exact B|discriminate].
    - intros F B. apply toFixed_fixed_point; [exact F|exact B|discriminate].
    - apply toFixed_not_fixed.
    - apply toFixed_not_fixed. }
  destruct (duration <? 0)%float eqn:D; cbn [negb] in G.
  - pose proof (calculateGrowth_suppressed pow_approx toLocaleString YEARS CURRENT_YEAR
                  niftyData p amount year box Ea Ey Eb G) as E.
    cbv zeta in E. unfold p'. rewrite E. cbn [fst].
    split; [split; reflexivity|]. split; [|split; [discriminate|exact T]].
    intros _. repeat split; reflexivity.
  - destruct (calculateGrowth_shown pow_approx toLocaleString YEARS CURRENT_YEAR
                niftyData p amount year box Ea Ey Eb G) as [attr' [Eact' E]].
    assert (attr' = attr) by congruence. subst attr'.
    cbv zeta in E. unfold p'. rewrite E. cbn [fst].
    split; [split; discriminate|]. split; [discriminate|]. split; [|exact T].
    intros _. repeat split; reflexivity.
Qed.

Lemma calculateGrowth_summary_witness :
  let p := sample_page "10000" "2015" (Some (Some "12"%string)) 2025 in
  let p' := fst (calculateGrowth_in pow_repeat enIN 2025 p) in
  simResultBox p' = Some "block"%string
  /\ simFinalAmountEl p' = Some "₹31,058"%string
  /\ simTotalReturnEl p' = Some "210.6%"%string
  /\ simCagrUsedEl p' = Some "12.00%"%string
  /\ fixed_point "210.6" 1 = true
  /\ fixed_point "12.00" 2 = true.
Proof.
  cbv zeta.
  pose proof (calculateGrowth_summary pow_repeat enIN (YEARS_of 2025) (of_Z 2025)
                (niftyData_of 2025)
                (sample_page "10000" "2015" (Some (Some "12"%string)) 2025)
                "10000" "2015" "none" (Some "12"%string)) as H.
  cbv zeta in H.
  destruct H as [_ [_ [H [F1 [F2 _]]]]]; try (vm_compute; reflexivity).
  destruct H as [H1 [H2 [H3 H4]]]; [vm_compute; reflexivity|].
  unfold calculateGrowth_in.
  rewrite H1, H2, H3, H4.
  split; [reflexivity|].
  split; [vm_compute; reflexivity|].
  split; [vm_compute; reflexivity|].
  split; [vm_compute; reflexivity|].
  split.
  - assert (E : "210.6"%string
                = toFixed ((safeParseNumber (VString "10000")
                            * Math_pow pow_repeat
                                (1 + parseCagr (dataset_cagr (Some "12"%string)))
                                (of_Z 2025 - parseInt10 "2015")
                            - safeParseNumber (VString "10000"))
                           / safeParseNumber (VString "10000") * 100)%float 1)
      by (vm_compute; reflexivity).
    rewrite E. apply F1; vm_compute; reflexivity.
  - assert (E : "12.00"%string
                = toFixed (parseCagr (dataset_cagr (Some "12"%string)) * 100)%float 2)
      by (vm_compute; reflexivity).
    rewrite E. apply F2; vm_compute; reflexivity.
Defined.

(** C7 as stated fails on "to 1 decimal place" and "to 2 decimal places":
    [toFixed] gives the text of the Number itself once it is not finite or
    reaches 1e21.  With the amount "1e308" every condition of the summary
    holds and the page shows an infinite amount and "Infinity%"; with the
    rate attribute "1e25" it shows "1e+25%" as the rate used. *)
Lemma calculateGrowth_summary_not_decimal :
  let p := sample_page "1e308" "2015" (Some (Some "12"%string)) 2025 in
  let p' := fst (calculateGrowth_in pow_repeat enIN 2025 p) in
  let q := sample_page "10000" "2015" (Some (Some "1e25"%string)) 2025 in
  let q' := fst (calculateGrowth_in pow_repeat enIN 2025 q) in
  (isFinite (safeParseNumber (VString "1e308")) = true
   /\ geb (safeParseNumber (VString "1e308")) 1000%float = true
   /\ isFinite (parseInt10 "2015") = true
   /\ isFinite (parseCagr (dataset_cagr (Some "12"%string))) = true
   /\ (of_Z 2025 - parseInt10 "2015" <? 0)%float = false
   /\ simResultBox p' = Some "block"%string
   /\ simFinalAmountEl p' = Some "₹∞"%string
   /\ simTotalReturnEl p' = Some "Infinity%"%string
   /\ fixed_point "Infinity" 1 = false)
  /\ (isFinite (safeParseNumber (VString "10000")) = true
      /\ geb (safeParseNumber (VString "10000")) 1000%float = true
      /\ isFinite (parseCagr (dataset_cagr (Some "1e25"%string))) = true
      /\ simResultBox q' = Some "block"%string
      /\ simCagrUsedEl q' = Some "1e+25%"%string
      /\ fixed_point "1e+25" 2 = false).
Proof.
  cbv zeta. split.
  - split; [vm_compute; reflexivity|].
    split; [vm_compute; reflexivity|].
    split; [vm_compute; reflexivity|].
    split; [vm_compute; reflexivity|].
    split; [vm_compute; reflexivity|].
    split; [vm_compute; reflexivity|].
    split; [vm_compute; reflexivity|].
    split; vm_compute; reflexivity.
  - split; [vm_compute; reflexivity|].
    split; [vm_compute; reflexivity|].
    split; [vm_compute; reflexivity|].
    split; [vm_compute; reflexivity|].
    split; vm_compute; reflexivity.
Qed.

(** * The rescaled benchmark *)

(** The rescaling itself tests nothing: were the baseline 0, every entry
    of the rescaled series would be [null] or not a finite Number. *)
Lemma scaleEntry_zero_baseline (YEARS niftyData : list float)
    (principal startYear base : float) (idx : nat) (val : float) :
  get niftyData (indexOf YEARS startYear) = Some base ->
  PrimFloat.is_zero base = true ->
  match scaleEntry YEARS niftyData principal startYear idx val with
  | None => True
  | Some v => isFinite v = false
  end.
Proof.
  intros Hb Hz. unfold scaleEntry. rewrite Hb.
  destruct (_ <? startYear)%float; [exact I|].
  pose proof (FloatFacts.mul_not_finite val _
                (FloatFacts.div_zero_not_finite principal base Hz)) as H.
  now rewrite (FloatFacts.Math_round_not_finite _ H).
Qed.

(** The benchmark of a shorter axis is the beginning of the benchmark of
    a longer one. *)
Lemma firstn_extension (rate last : float) (k n : nat) :
  (k <= n)%nat -> firstn k (extension rate last n) = extension rate last k.
Proof.
  intros H. unfold extension. now rewrite firstn_map, firstn_seq_le.
Qed.

Lemma buildNiftyData_closed (years seed : list float) :
  buildNiftyData years seed
  = map Math_round
      (firstn (length years)
         (seed ++ extension (approxCagr_of seed) (seed_last seed)
                    (length years - length seed))).
Proof.
  unfold buildNiftyData.
  destruct (Nat.leb_spec (length years) (length seed)) as [H|H].
  - replace (length years - length seed)%nat with O by lia.
    cbn [extension seq map]. now rewrite app_nil_r.
  - rewrite extend_loop_spec by lia. f_equal.
    symmetry. apply firstn_all2.
    rewrite length_app, length_extension. lia.
Qed.

Lemma buildNiftyData_prefix (years years' seed : list float) :
  (length years <= length years')%nat ->
  buildNiftyData years seed
  = firstn (length years) (buildNiftyData years' seed).
Proof.
  intros H. rewrite !buildNiftyData_closed.
  rewrite firstn_map, firstn_firstn, Nat.min_l by exact H. f_equal.
  rewrite !firstn_app. f_equal.
  rewrite !firstn_extension by lia. reflexivity.
Qed.

Lemma niftyData_of_prefix (cy cy' : Z) :
  cy <= cy' ->
  niftyData_of cy = firstn (length (YEARS_of cy)) (niftyData_of cy').
Proof.
  intros H. unfold niftyData_of. apply buildNiftyData_prefix.
  unfold YEARS_of. rewrite !length_map, !length_seq. lia.
Qed.

(** Every value of the benchmark is a finite Number of at least 10000,
    for every current year of at most four digits. *)
Lemma niftyData_of_values (cy : Z) :
  cy <= 9999 -> forallb benchmark_value (niftyData_of cy) = true.
Proof.
  intros H. rewrite (niftyData_of_prefix cy 9999 H).
  apply forallb_firstn. vm_compute. reflexivity.
Qed.




(** * Parsing *)

Section Parsing.

Lemma digit_nonneg (c : ascii) (d : Z) : digit c = Some d -> 0 <= d.
Proof.
  unfold digit.
  destruct ((48 <=? Z.of_N (N_of_ascii c)) && (Z.of_N (N_of_ascii c) <=? 57)) eqn:E;
    [|discriminate].
  intros [= <-]. apply andb_true_iff in E. lia.
Qed.

Lemma scan_digits_spec (s : string) :
  forall acc count,
    let '(v, n, r) := scan_digits s acc count in
    (0 <= acc -> 0 <= v)
    /\ (starts_with_digit s = false -> n = count /\ r = s)
    /\ (starts_with_digit s = true -> count < n).
Proof.
  induction s as [|c s IH]; intros acc count; cbn [scan_digits starts_with_digit].
  - repeat split; try lia; discriminate.
  - destruct (digit c) as [d|] eqn:D.
    + specialize (IH (10 * acc + d) (count + 1)).
      destruct (scan_digits s (10 * acc + d) (count + 1)) as [[v n] r].
      destruct IH as [IH1 [IH2 IH3]].
      pose proof (digit_nonneg c d D).
      split; [intros; apply IH1; lia|].
      split; [discriminate|]. intros _.
      destruct (starts_with_digit s); [specialize (IH3 eq_refl)|
                                       destruct (IH2 eq_refl)]; lia.
    + repeat split; try lia; discriminate.
Qed.

Lemma dec_value_not_nan (m e : Z) :
  0 <= m -> PrimFloat.is_nan (dec_value m e) = false.
Proof.
  intros Hm. unfold dec_value.
  destruct (m =? 0); [reflexivity|].
  destruct (Z.leb_spec 0 e) as [_|He]; [apply FloatFacts.of_Z_not_nan|].
  destruct (SFdiv_core_binary prec emax m 0 (10 ^ (- e)) 0) as [[q e'] l] eqn:E.
  apply FloatFacts.SF2Prim_not_nan, FloatFacts.binary_round_aux_not_nan.
  unfold SFdiv_core_binary in E.
  assert (Hpos : 0 < 10 ^ (- e)) by (apply Z.pow_pos_nonneg; lia).
  match type of E with
  | (let '(_, _) := Z.div_eucl ?a ?b in _) = _ =>
      assert (Ha : 0 <= a);
      [|pose proof (Z.div_pos a b Ha Hpos) as Hq; unfold Z.div in Hq;
        destruct (Z.div_eucl a b) as [q' r']]
  end.
  { destruct (0 - 0 - _); try lia. apply Z.shiftl_nonneg. exact Hm. }
  injection E as <- _ _. exact Hq.
Qed.

(** [scan_unsigned] finds a literal exactly where one starts, and a
    literal is never read as NaN. *)
Lemma scan_unsigned_spec (r : string) :
  match scan_unsigned r with
  | Some v =>
      PrimFloat.is_nan v = false
      /\ (prefix "Infinity" r
          || starts_with_digit r
          || match r with
             | String c r' => (c =? ".")%char && starts_with_digit r'
             | EmptyString => false
             end) = true
  | None =>
      (prefix "Infinity" r
       || starts_with_digit r
       || match r with
          | String c r' => (c =? ".")%char && starts_with_digit r'
          | EmptyString => false
          end) = false
  end.
Proof.
  unfold scan_unsigned.
  destruct (prefix "Infinity" r) eqn:P; [split; reflexivity|].
  cbn [orb].
  pose proof (scan_digits_spec r 0 0) as H.
  destruct (scan_digits r 0 0) as [[ip ni] r1].
  destruct H as [H1 [H2 H3]]. specialize (H1 ltac:(lia)).
  destruct (starts_with_digit r) eqn:SD.
  - specialize (H3 eq_refl). cbn [orb].
    assert (N : (ni =? 0) = false) by (apply Z.eqb_neq; lia).
    destruct r1 as [|c r2].
    + rewrite N. split; [now apply dec_value_not_nan|reflexivity].
    + destruct (c =? ".")%char.
      * pose proof (scan_digits_spec r2 ip 0) as K.
        destruct (scan_digits r2 ip 0) as [[m nf] r3].
        destruct K as [K1 _]. rewrite N. cbn [andb].
        split; [apply dec_value_not_nan; auto|reflexivity].
      * rewrite N. split; [now apply dec_value_not_nan|reflexivity].
  - destruct (H2 eq_refl) as [-> ->]. cbn [orb].
    destruct r as [|c r2]; [reflexivity|].
    destruct (c =? ".")%char; [|reflexivity].
    pose proof (scan_digits_spec r2 ip 0) as K.
    destruct (scan_digits r2 ip 0) as [[m nf] r3].
    destruct K as [K1 [K2 K3]].
    destruct (starts_with_digit r2) eqn:SD2.
    + specialize (K3 eq_refl).
      assert (N : (nf =? 0) = false) by (apply Z.eqb_neq; lia).
      rewrite N. cbn [andb].
      split; [apply dec_value_not_nan; auto|reflexivity].
    + destruct (K2 eq_refl) as [-> _]. reflexivity.
Qed.

(** [parseFloat] is NaN exactly on a text with no literal at its head. *)
Lemma parseFloat_nan_iff (t : string) :
  PrimFloat.is_nan (parseFloat t) = negb (starts_with_literal t).
Proof.
  unfold parseFloat, starts_with_literal.
  destruct (scan_sign (trim_start t)) as [neg r]. cbn [snd].
  pose proof (scan_unsigned_spec r) as H.
  destruct (scan_unsigned r) as [v|].
  - destruct H as [Hv ->]. cbn [negb].
    destruct neg; [now apply FloatFacts.opp_not_nan|exact Hv].
  - rewrite H. reflexivity.
Qed.

End Parsing.

(** C5, as the code has it.  On a string, [safeParseNumber] removes the
    commas, trims the white space and gives the rest to [parseFloat]; the
    empty string is NaN without parsing.  [parseFloat] reads the longest
    decimal literal at the head of the text and ignores what follows, so
    the result is NaN exactly when the string is empty or the cleaned text
    does not begin with a literal.  In particular "10,000" is 10000, and
    "abc" and "" are NaN. *)
Theorem safeParseNumber_string (s : string) :
  safeParseNumber (VString s)
  = (if String.eqb s "" then nan else parseFloat (cleaned s))
  /\ PrimFloat.is_nan (safeParseNumber (VString s))
     = String.eqb s "" || negb (starts_with_literal (cleaned s))
  /\ safeParseNumber (VString "10,000") = 10000%float
  /\ PrimFloat.is_nan (safeParseNumber (VString "abc")) = true
  /\ PrimFloat.is_nan (safeParseNumber (VString "")) = true.
Proof.
  assert (E : safeParseNumber (VString s)
              = if String.eqb s "" then nan else parseFloat (cleaned s)).
  { destruct s; reflexivity. }
  split; [exact E|]. split.
  - rewrite E. destruct (String.eqb s ""); [reflexivity|].
    apply parseFloat_nan_iff.
  - evaluate.
Qed.

(** C5 as stated fails: the cleaned text "12abc" is not a number, and the
    result is 12, not NaN. *)
Lemma safeParseNumber_reads_prefix :
  cleaned "12abc" = "12abc"%string
  /\ safeParseNumber (VString "12abc") = 12%float
  /\ PrimFloat.is_nan (safeParseNumber (VString "12abc")) = false.
Proof. evaluate. Qed.

(** What [parseCagr] does, case by case.  For a value that is neither
    [null] nor [undefined] it trims the text, drops one trailing "%" and
    parses the rest to a number [n]; the result is NaN when [n] is not
    finite (non-numeric text included), [n / 100] when [n > 1], and [n]
    itself when [n <= 1].  [null] and [undefined] give NaN.  In particular
    "10" and "10%" give 0.1, the Number 0.1 gives 0.1, and "150" gives
    1.5. *)
Theorem parseCagr_cases (v : value) :
  let n := parsed_rate v in
  (v = VNull \/ v = VUndefined -> PrimFloat.is_nan (parseCagr v) = true)
  /\ (v <> VNull -> v <> VUndefined ->
        (isFinite n = false -> PrimFloat.is_nan (parseCagr v) = true)
        /\ (isFinite n = true -> gtb n 1%float = true -> parseCagr v = (n / 100)%float)
        /\ (isFinite n = true -> geb 1%float n = true -> parseCagr v = n))
  /\ parseCagr (VString "10") = 0.1%float
  /\ parseCagr (VString "10%") = 0.1%float
  /\ parseCagr (VNumber 0.1) = 0.1%float
  /\ parseCagr (VString "150") = 1.5%float
  /\ PrimFloat.is_nan (parseCagr (VString "abc")) = true.
Proof.
  intros n. split; [intros [->| ->]; reflexivity|]. split.
  - intros N1 N2.
    assert (E : parseCagr v
                = if negb (isFinite n) then nan
                  else if gtb n 1%float then (n / 100)%float else n).
    { destruct v; try congruence; reflexivity. }
    rewrite E. repeat split.
    + intros ->. reflexivity.
    + intros -> ->. reflexivity.
    + intros -> H. unfold geb in H. unfold gtb.
      now rewrite (FloatFacts.leb_ltb_false _ _ H).
  - evaluate.
Qed.

Lemma parseCagr_cases_witness :
  parseCagr (VString " 12.5 % ") = (12.5 / 100)%float
  /\ parseCagr (VString "0.5") = 0.5%float.
Proof.
  pose proof (parseCagr_cases (VString " 12.5 % ")) as H.
  pose proof (parseCagr_cases (VString "0.5")) as K.
  cbv zeta in H, K.
  destruct H as [_ [H _]]. destruct K as [_ [K _]].
  destruct H as [_ [H _]]; try discriminate.
  destruct K as [_ [_ K]]; try discriminate.
  split.
  - rewrite H by (vm_compute; reflexivity). vm_compute. reflexivity.
  - rewrite K by (vm_compute; reflexivity). vm_compute. reflexivity.
Defined.

(** C3.  The claim (a number whose magnitude exceeds 1 is a whole
    percentage and is divided by 100) is what the comment of line 33
    announces, and the code misses it for negative percentages: the test
    of line 34 is the signed [n > 1], so "-50" is parsed to -50, its
    magnitude 50 exceeds 1, and it is returned undivided (a rate of
    -5000%) instead of -0.5.  The same holds with a "%" sign and after
    white space. *)
Lemma parseCagr_negative_percentage :
  parsed_rate (VString "-50") = (-50)%float
  /\ gtb (abs (-50)) 1%float = true
  /\ parseCagr (VString "-50") = (-50)%float
  /\ parseCagr (VString "-50") <> (-50 / 100)%float
  /\ parseCagr (VString " -50% ") = (-50)%float
  /\ parseCagr (VString "50") = (50 / 100)%float.
Proof.
  split; [vm_compute; reflexivity|].
  split; [vm_compute; reflexivity|].
  split; [vm_compute; reflexivity|].
  split; [|evaluate].
  intros H.
  apply (f_equal (fun x => (x <? -1)%float)) in H.
  vm_compute in H. discriminate.
Qed.

(** * The built-ins on known values *)

Example Math_round_values :
  Math_round 2.5 = 3%float /\ Math_round (-2.5) = (-2)%float
  /\ Math_round 0.49999999999999994 = 0%float
  /\ Math_round (-0.5) = neg_zero
  /\ Math_round 31058.48208344209 = 31058%float
  /\ Math_round 9007199254740991 = 9007199254740991%float.
Proof. evaluate. Qed.

Example parseFloat_values :
  parseFloat "  -12.5e1xyz" = (-125)%float
  /\ parseFloat ".5" = 0.5%float
  /\ parseFloat "5." = 5%float
  /\ PrimFloat.is_nan (parseFloat ".") = true
  /\ parseFloat "1e" = 1%float
  /\ parseFloat "1e400" = infinity
  /\ parseFloat "-0" = neg_zero
  /\ parseFloat "Infinityx" = infinity
  /\ parseFloat "0.30000000000000004" = (0.1 + 0.2)%float
  /\ parseFloat "9007199254740993" = 9007199254740992%float
  /\ parseFloat "4.9e-324" = 4.9e-324%float
  /\ parseFloat "1.7976931348623157e308" = 1.7976931348623157e308%float.
Proof. evaluate. Qed.

Example parseInt10_values :
  parseInt10 " 2015" = 2015%float
  /\ parseInt10 "2015.9" = 2015%float
  /\ parseInt10 "-7x" = (-7)%float
  /\ PrimFloat.is_nan (parseInt10 "") = true
  /\ PrimFloat.is_nan (parseInt10 "x1") = true.
Proof. evaluate. Qed.

(** The no-break space U+00A0 is white space to [trim], [parseFloat] and
    [parseInt] alike. *)
Example no_break_space_values :
  let nbsp := String (ascii_of_nat 160) EmptyString in
  trim (nbsp ++ "Asha" ++ nbsp) = "Asha"%string
  /\ safeParseNumber (VString (nbsp ++ "5000")) = 5000%float
  /\ parseCagr (VString (nbsp ++ "12")) = 0.12%float
  /\ parseInt10 (nbsp ++ "2015") = 2015%float
  /\ lead_accepted (field_text (Some {| ctl_value := nbsp; ctl_default := "" |}))
       "9876543210" = false.
Proof. cbv zeta. evaluate. Qed.

Example Number_toString_values :
  Number_toString 0.1 = "0.1"%string
  /\ Number_toString 10000 = "10000"%string
  /\ Number_toString 1e21 = "1e+21"%string
  /\ Number_toString 1.5e-7 = "1.5e-7"%string
  /\ Number_toString 0.000001 = "0.000001"%string
  /\ Number_toString (0.1 + 0.2) = "0.30000000000000004"%string
  /\ Number_toString 123456789012345680000 = "123456789012345680000"%string
  /\ Number_toString 5e-324 = "5e-324"%string
  /\ Number_toString (-12.5) = "-12.5"%string
  /\ Number_toString nan = "NaN"%string.
Proof. evaluate. Qed.

Example toFixed_values :
  toFixed 210.58482083442 1 = "210.6"%string
  /\ toFixed 12 2 = "12.00"%string
  /\ toFixed 1.005 2 = "1.00"%string
  /\ toFixed (-0.0001) 1 = "-0.0"%string
  /\ toFixed 2.5 0 = "3"%string
  /\ toFixed 99.95 1 = "100.0"%string
  /\ toFixed 1e21 2 = "1e+21"%string.
Proof. evaluate. Qed.

Example enIN_values :
  enIN 1580000 = "15,80,000"%string
  /\ enIN 31058 = "31,058"%string
  /\ enIN 999 = "999"%string.
Proof. evaluate. Qed.

(** The series of the page in 2027: the seed, then two compounded years. *)
Example niftyData_2027 :
  niftyData_of 2027
  = [10000; 11000; 12500; 13000; 15000; 14000; 18000; 21000; 20000; 24000;
     25000; 26042; 27127]%float.
Proof. vm_compute. reflexivity. Qed.

Example computeUserSeries_2020 :
  computeUserSeries pow_repeat (YEARS_of 2025) 10000 2020 0.1
  = [None; None; None; None; None; Some 10000; Some 11000; Some 12100;
     Some 13310; Some 14641; Some 16105]%float.
Proof. vm_compute. reflexivity. Qed.

(** The values the year select offers in 2025 ([String(y)] for each year
    of the axis) parse back to the years of the axis. *)
Example year_options_2025 :
  map (fun y => parseInt10 (Number_toString y)) (YEARS_of 2025) = YEARS_of 2025.
Proof. vm_compute. reflexivity. Qed.

(** * Further properties of the benchmark series *)

Lemma length_buildNiftyData (years seed : list float) :
  length (buildNiftyData years seed) = length years.
Proof.
  unfold buildNiftyData.
  destruct (Nat.leb_spec (length years) (length seed)) as [H|H].
  - rewrite length_map, length_firstn. lia.
  - rewrite length_map, extend_loop_spec by lia.
    rewrite length_app, length_extension. lia.
Qed.

(** X1. Whatever the seed (longer or shorter than the axis, or empty),
    [buildNiftyData] returns one entry per year of the axis, as the
    comment of line 39 says; so the benchmark the script builds has one
    value per year. *)
Theorem buildNiftyData_length (years seed : list float) (cy : Z) :
  length (buildNiftyData years seed) = length years
  /\ length (niftyData_of cy) = length (YEARS_of cy).
Proof.
  split; [apply length_buildNiftyData|].
  unfold niftyData_of. apply length_buildNiftyData.
Qed.

(** X2. The extension never touches the samples it starts from: every
    entry of the result that has a seed value is that value, rounded. *)
Theorem buildNiftyData_keeps_seed (years seed : list float) (i : nat) :
  (i < length years)%nat ->
  (i < length seed)%nat ->
  nth_error (buildNiftyData years seed) i = option_map Math_round (nth_error seed i).
Proof.
  intros Hy Hs. unfold buildNiftyData.
  destruct (Nat.leb_spec (length years) (length seed)) as [H|H].
  - rewrite nth_error_map, nth_error_firstn.
    destruct (Nat.ltb_spec i (length years)); [reflexivity|lia].
  - rewrite nth_error_map, extend_loop_spec by lia.
    now rewrite nth_error_app1 by exact Hs.
Qed.

Lemma buildNiftyData_keeps_seed_witness :
  nth_error (niftyData_of 2030) 10 = Some 25000%float.
Proof.
  unfold niftyData_of.
  rewrite (buildNiftyData_keeps_seed (YEARS_of 2030) baseNiftySamples 10)
    by (vm_compute; lia).
  reflexivity.
Defined.

(** X23. The benchmark does not rewrite its past: the series built in one
    year is the beginning of the series built in any later year; and up to
    the year 9999 every value of it is a finite Number of at least
    10000. *)
Theorem niftyData_of_stable (cy cy' : Z) :
  cy <= cy' ->
  niftyData_of cy = firstn (length (YEARS_of cy)) (niftyData_of cy')
  /\ (cy' <= 9999 ->
        forall b, In b (niftyData_of cy) ->
          isFinite b = true /\ geb b 10000%float = true).
Proof.
  intros H. split; [exact (niftyData_of_prefix cy cy' H)|].
  intros H' b Hb.
  assert (Hc : cy <= 9999) by lia.
  pose proof (niftyData_of_values cy Hc) as V.
  rewrite forallb_forall in V. specialize (V b Hb).
  unfold benchmark_value in V.
  apply andb_true_iff in V. destruct V as [V _].
  apply andb_true_iff in V. exact V.
Qed.

Lemma niftyData_of_stable_witness :
  niftyData_of 2025 = firstn 11 (niftyData_of 2027)
  /\ geb 26042%float 10000%float = true.
Proof.
  pose proof (niftyData_of_stable 2025 2027) as H.
  destruct H as [H1 _]; [lia|].
  pose proof (niftyData_of_stable 2027 2027) as K.
  destruct K as [_ K]; [lia|].
  split.
  - exact H1.
  - apply (K ltac:(lia) 26042%float). vm_compute. tauto.
Defined.

(** * The highlighted points *)

Lemma indexOf_from_spec (l : list float) (x : float) :
  forall k,
    (indexOf_from l x k = -1 /\ forall y, In y l -> (y =? x)%float = false)
    \/ (exists n y,
          indexOf_from l x k = k + Z.of_nat n
          /\ nth_error l n = Some y /\ (y =? x)%float = true
          /\ forall m z, (m < n)%nat -> nth_error l m = Some z -> (z =? x)%float = false).
Proof.
  induction l as [|a l IH]; intros k; cbn [indexOf_from].
  - left. split; [reflexivity|]. intros y [].
  - destruct (a =? x)%float eqn:E.
    + right. exists 0%nat, a.
      split; [lia|]. split; [reflexivity|]. split; [exact E|].
      intros m z Hm. lia.
    + destruct (IH (k + 1)) as [[H1 H2]|[n [y [H1 [H2 [H3 H4]]]]]].
      * left. split; [exact H1|]. intros y [<-|Hy]; auto.
      * right. exists (S n), y.
        split; [lia|]. split; [exact H2|]. split; [exact H3|].
        intros [|m] z Hm Hz; cbn in Hz.
        -- now injection Hz as <-.
        -- apply (H4 m z); [lia|exact Hz].
Qed.

(** X3. [computeHighlightIndices] returns exactly the positions at which
    the highlighted years first occur on the axis: every index it returns
    lies on the axis and holds a highlighted year, a highlighted year on
    the axis has its position returned, and one that is absent (or NaN)
    contributes nothing. *)
Theorem computeHighlightIndices_spec (years highlights : list float) :
  (forall i, In i (computeHighlightIndices years highlights) ->
     0 <= i < Z.of_nat (length years)
     /\ exists h y, In h highlights
                    /\ nth_error years (Z.to_nat i) = Some y /\ (y =? h)%float = true)
  /\ (forall h y, In h highlights -> In y years -> (y =? h)%float = true ->
        In (indexOf years h) (computeHighlightIndices years highlights))
  /\ (forall h, (forall y, In y years -> (y =? h)%float = false) ->
        computeHighlightIndices years (h :: highlights)
        = computeHighlightIndices years highlights)
  /\ (length (computeHighlightIndices years highlights) <= length highlights)%nat.
Proof.
  unfold computeHighlightIndices. split; [|split; [|split]].
  - intros i H. apply filter_In in H. destruct H as [H Hi]. apply Z.leb_le in Hi.
    apply in_map_iff in H. destruct H as [h [Hh Hin]].
    unfold indexOf in Hh.
    destruct (indexOf_from_spec years h 0) as [[H1 _]|[n [y [H1 [H2 [H3 _]]]]]]; [lia|].
    assert (n < length years)%nat by (apply nth_error_Some; congruence).
    split; [lia|].
    exists h, y. subst i. rewrite H1. cbn [Z.add]. rewrite Nat2Z.id. auto.
  - intros h y Hh Hy E. apply filter_In. split.
    + apply in_map_iff. exists h. auto.
    + unfold indexOf.
      destruct (indexOf_from_spec years h 0) as [[_ H2]|[n [z [H1 _]]]].
      * rewrite (H2 y Hy) in E. discriminate.
      * apply Z.leb_le. lia.
  - intros h Hn. cbn [map filter]. unfold indexOf.
    destruct (indexOf_from_spec years h 0) as [[H1 _]|[n [y [_ [H2 [H3 _]]]]]].
    + rewrite H1. reflexivity.
    + apply nth_error_In in H2. rewrite (Hn y H2) in H3. discriminate.
  - rewrite <- (length_map (fun y => indexOf years y) highlights).
    apply filter_length_le.
Qed.

Lemma computeHighlightIndices_spec_witness :
  computeHighlightIndices (YEARS_of 2021) (default_highlights 2021) = [4; 6]
  /\ In 4 (computeHighlightIndices (YEARS_of 2021) (default_highlights 2021)).
Proof.
  split; [reflexivity|].
  destruct (computeHighlightIndices_spec (YEARS_of 2021) (default_highlights 2021))
    as [_ [H _]].
  apply (H 2019%float 2019%float); [left; reflexivity| |reflexivity].
  vm_compute. tauto.
Defined.

(** * Further properties of the rescaled benchmark *)

Lemma nth_error_mapi_from {A B : Type} (f : nat -> A -> B) (l : list A) :
  forall k i, nth_error (mapi_from f k l) i = option_map (f (k + i)%nat) (nth_error l i).
Proof.
  induction l as [|x l IH]; intros k [|i]; cbn; try reflexivity.
  - now rewrite Nat.add_0_r.
  - rewrite IH. now rewrite Nat.add_succ_r.
Qed.

Lemma length_mapi_from {A B : Type} (f : nat -> A -> B) (l : list A) :
  forall k, length (mapi_from f k l) = length l.
Proof. induction l as [|x l IH]; intros k; cbn; [reflexivity|now rewrite IH]. Qed.

(** X4. The rescaled benchmark has one entry per benchmark value, and its
    entry for a year of the axis is [null] exactly when that year is
    before the start year. *)
Theorem scaledNiftyData_shape (YEARS niftyData : list float)
    (principal startYear : float) :
  let scaled := scaledNiftyData YEARS niftyData principal startYear in
  length scaled = length niftyData
  /\ forall i val year,
       nth_error niftyData i = Some val ->
       nth_error YEARS i = Some year ->
       (nth_error scaled i = Some None <-> (year <? startYear)%float = true).
Proof.
  intros scaled. split; [apply length_mapi_from|].
  intros i val year Hv Hy. unfold scaled, scaledNiftyData.
  rewrite nth_error_mapi_from, Hv. cbn [option_map Nat.add].
  unfold scaleEntry. rewrite Hy.
  destruct (year <? startYear)%float; split; congruence.
Qed.

Lemma scaledNiftyData_shape_witness :
  nth_error (scaledNiftyData (YEARS_of 2025) (niftyData_of 2025) 10000 2020) 4
  = Some None.
Proof.
  pose proof (scaledNiftyData_shape (YEARS_of 2025) (niftyData_of 2025) 10000 2020) as H.
  cbv zeta in H. destruct H as [_ H].
  apply (H 4%nat 15000%float 2019%float); reflexivity.
Defined.

Lemma div_nan (a : float) : (a / nan)%float = nan.
Proof.
  apply Prim2SF_inj. rewrite div_spec.
  change (Prim2SF nan) with S754_nan. now destruct (Prim2SF a).
Qed.

Lemma mul_nan (a : float) : (a * nan)%float = nan.
Proof.
  apply Prim2SF_inj. rewrite mul_spec.
  change (Prim2SF nan) with S754_nan. now destruct (Prim2SF a).
Qed.

Lemma indexOf_nan (l : list float) (x : float) :
  PrimFloat.is_nan x = true -> indexOf l x = -1.
Proof.
  intros H. apply FloatFacts.is_nan_SF in H. unfold indexOf. generalize 0.
  induction l as [|y l IH]; intros k; cbn [indexOf_from]; [reflexivity|].
  rewrite eqb_spec, H. unfold SFeqb.
  replace (SFcompare (Prim2SF y) S754_nan) with (@None comparison)
    by (now destruct (Prim2SF y)).
  apply IH.
Qed.

(** X5. When the start year is not a year of the axis (in particular when
    it is NaN, as for an empty year select), the baseline is [undefined]
    and every entry of the rescaled benchmark is [null] or NaN. *)
Theorem scaledNiftyData_off_axis (YEARS niftyData : list float)
    (principal startYear : float) :
  PrimFloat.is_nan startYear = true \/ indexOf YEARS startYear = -1 ->
  Forall (fun e => e = None \/ e = Some nan)
         (scaledNiftyData YEARS niftyData principal startYear).
Proof.
  intros H.
  assert (E : indexOf YEARS startYear = -1)
    by (destruct H as [H|H]; [now apply indexOf_nan|exact H]).
  unfold scaledNiftyData. apply Forall_mapi_from. intros j x.
  unfold scaleEntry. rewrite E. cbn [get Z.ltb Z.compare].
  destruct (_ <? startYear)%float; [now left|right].
  now rewrite div_nan, mul_nan.
Qed.

Lemma scaledNiftyData_off_axis_witness :
  Forall (fun e => e = None \/ e = Some nan)
         (scaledNiftyData (YEARS_of 2025) (niftyData_of 2025) 10000 (parseInt10 "")).
Proof.
  apply scaledNiftyData_off_axis. left. reflexivity.
Defined.

(** * Further properties of the recalculation *)

(** X6. A run keeps the chart aligned: the benchmark it leaves and draws
    has one entry per benchmark value, the projection one entry per year
    of the axis. *)
Theorem calculateGrowth_keeps_alignment (pow_approx : float -> float -> float)
    (toLocaleString : float -> string) (YEARS : list float) (CURRENT_YEAR : float)
    (niftyData : list float) (p : page) (amount year box : string) :
  simAmountInput p = Some amount ->
  simYearSelect p = Some year ->
  simResultBox p = Some box ->
  let r := calculateGrowth pow_approx toLocaleString YEARS CURRENT_YEAR niftyData p in
  Forall (fun c => length (nifty_data c) = length niftyData
                   /\ length (user_data c) = length YEARS)
         (marketChart (fst r) :: snd r).
Proof.
  intros Ea Ey Eb r. unfold r.
  destruct (gate CURRENT_YEAR amount year (activeBtn p)) eqn:G.
  - destruct (calculateGrowth_shown pow_approx toLocaleString YEARS CURRENT_YEAR
                niftyData p amount year box Ea Ey Eb G) as [attr [_ E]].
    cbv zeta in E. rewrite E. cbn [fst snd shown_page marketChart].
    repeat constructor; cbn [nifty_data user_data];
      first [apply length_mapi_from | apply length_map].
  - pose proof (calculateGrowth_suppressed pow_approx toLocaleString YEARS
                  CURRENT_YEAR niftyData p amount year box Ea Ey Eb G) as E.
    cbv zeta in E. rewrite E. cbn [fst snd suppressed_page marketChart].
    repeat constructor; cbn [nifty_data user_data];
      first [apply length_mapi_from | apply length_map].
Qed.

Lemma calculateGrowth_keeps_alignment_witness :
  let r := calculateGrowth_in pow_repeat enIN 2027
             (sample_page "5000" "2020" (Some (Some "8%"%string)) 2027) in
  length (nifty_data (marketChart (fst r))) = 13%nat
  /\ length (user_data (marketChart (fst r))) = 13%nat.
Proof.
  cbv zeta.
  pose proof (calculateGrowth_keeps_alignment pow_repeat enIN (YEARS_of 2027)
                (of_Z 2027) (niftyData_of 2027)
                (sample_page "5000" "2020" (Some (Some "8%"%string)) 2027)
                "5000" "2020" "none" eq_refl eq_refl eq_refl) as H.
  cbv zeta in H. apply Forall_inv in H. destruct H as [H1 H2].
  unfold calculateGrowth_in. rewrite H1, H2. split; reflexivity.
Defined.

(** X7. A run never changes what it reads (the amount, the year, the
    active category) and neither creates nor removes an element; when the
    amount input, the year select or the result box is missing it changes
    nothing at all and draws nothing. *)
Theorem calculateGrowth_frame (pow_approx : float -> float -> float)
    (toLocaleString : float -> string) (YEARS : list float) (CURRENT_YEAR : float)
    (niftyData : list float) (p : page) :
  let r := calculateGrowth pow_approx toLocaleString YEARS CURRENT_YEAR niftyData p in
  simAmountInput (fst r) = simAmountInput p
  /\ simYearSelect (fst r) = simYearSelect p
  /\ activeBtn (fst r) = activeBtn p
  /\ (simResultBox (fst r) = None <-> simResultBox p = None)
  /\ (simFinalAmountEl (fst r) = None <-> simFinalAmountEl p = None)
  /\ (simTotalReturnEl (fst r) = None <-> simTotalReturnEl p = None)
  /\ (simCagrUsedEl (fst r) = None <-> simCagrUsedEl p = None)
  /\ (simAmountInput p = None \/ simYearSelect p = None \/ simResultBox p = None ->
      r = (p, [])).
Proof.
  intros r.
  assert (M : simAmountInput p = None \/ simYearSelect p = None \/ simResultBox p = None ->
              r = (p, [])) by apply calculateGrowth_missing.
  destruct (simAmountInput p) as [amount|] eqn:Ea;
    [|rewrite M by auto; cbn [fst]; rewrite Ea; tauto].
  destruct (simYearSelect p) as [year|] eqn:Ey;
    [|rewrite M by auto; cbn [fst]; rewrite Ea, Ey; tauto].
  destruct (simResultBox p) as [box|] eqn:Eb;
    [|rewrite M by auto; cbn [fst]; rewrite Ea, Ey, Eb; tauto].
  unfold r in *. clear M.
  destruct (gate CURRENT_YEAR amount year (activeBtn p)) eqn:G.
  - destruct (calculateGrowth_shown pow_approx toLocaleString YEARS CURRENT_YEAR
                niftyData p amount year box Ea Ey Eb G) as [attr [_ E]].
    cbv zeta in E. rewrite E.
    cbn [fst shown_page simAmountInput simYearSelect simResultBox activeBtn
         simFinalAmountEl simTotalReturnEl simCagrUsedEl].
    rewrite Ea, Ey.
    destruct (simFinalAmountEl p), (simTotalReturnEl p), (simCagrUsedEl p);
      cbn [option_map]; repeat split; try congruence;
      intros [H|[H|H]]; discriminate.
  - pose proof (calculateGrowth_suppressed pow_approx toLocaleString YEARS
                  CURRENT_YEAR niftyData p amount year box Ea Ey Eb G) as E.
    cbv zeta in E. rewrite E.
    cbn [fst suppressed_page simAmountInput simYearSelect simResultBox activeBtn
         simFinalAmountEl simTotalReturnEl simCagrUsedEl].
    rewrite Ea, Ey.
    repeat split; try congruence; intros [H|[H|H]]; discriminate.
Qed.

(** X8. Every chart a run draws is the chart it leaves: no update shows a
    state between the old chart and the new one.  A run that shows the
    result draws twice, one that hides it once. *)
Theorem calculateGrowth_draws_final_chart (pow_approx : float -> float -> float)
    (toLocaleString : float -> string) (YEARS : list float) (CURRENT_YEAR : float)
    (niftyData : list float) (p : page) (amount year box : string) :
  simAmountInput p = Some amount ->
  simYearSelect p = Some year ->
  simResultBox p = Some box ->
  let r := calculateGrowth pow_approx toLocaleString YEARS CURRENT_YEAR niftyData p in
  Forall (fun c => c = marketChart (fst r)) (snd r)
  /\ (simResultBox (fst r) = Some "block"%string -> length (snd r) = 2%nat)
  /\ (simResultBox (fst r) = Some "none"%string -> length (snd r) = 1%nat)
  /\ (simResultBox (fst r) = Some "block"%string
      \/ simResultBox (fst r) = Some "none"%string).
Proof.
  intros Ea Ey Eb r. unfold r.
  destruct (gate CURRENT_YEAR amount year (activeBtn p)) eqn:G.
  - destruct (calculateGrowth_shown pow_approx toLocaleString YEARS CURRENT_YEAR
                niftyData p amount year box Ea Ey Eb G) as [attr [_ E]].
    cbv zeta in E. rewrite E. cbn [fst snd shown_page simResultBox].
    split; [repeat constructor|]. split; [reflexivity|].
    split; [discriminate|now left].
  - pose proof (calculateGrowth_suppressed pow_approx toLocaleString YEARS
                  CURRENT_YEAR niftyData p amount year box Ea Ey Eb G) as E.
    cbv zeta in E. rewrite E. cbn [fst snd suppressed_page simResultBox].
    split; [repeat constructor|]. split; [discriminate|].
    split; [reflexivity|now right].
Qed.

Lemma calculateGrowth_draws_final_chart_witness :
  let r := calculateGrowth_in pow_repeat enIN 2025
             (sample_page "500" "2015" (Some (Some "12"%string)) 2025) in
  snd r = [marketChart (fst r)].
Proof.
  cbv zeta.
  pose proof (calculateGrowth_draws_final_chart pow_repeat enIN (YEARS_of 2025)
                (of_Z 2025) (niftyData_of 2025)
                (sample_page "500" "2015" (Some (Some "12"%string)) 2025)
                "500" "2015" "none" eq_refl eq_refl eq_refl) as H.
  cbv zeta in H. destruct H as [H1 [_ [H3 _]]].
  unfold calculateGrowth_in.
  specialize (H3 ltac:(vm_compute; reflexivity)).
  destruct (snd (calculateGrowth pow_repeat enIN (YEARS_of 2025) (of_Z 2025)
                   (niftyData_of 2025)
                   (sample_page "500" "2015" (Some (Some "12"%string)) 2025)))
    as [|c [|c' l]]; try discriminate.
  apply Forall_inv in H1. now rewrite H1.
Defined.

(** * Rounding keeps Numbers finite *)

Section RoundFinite.

Lemma digits2_pos_size (p : positive) : digits2_pos p = Pos.size p.
Proof. induction p as [p IH|p IH|]; cbn; now rewrite ?IH. Qed.

Lemma digits2_pos_bound (p : positive) :
  Zpos p < 2 ^ 53 -> Zpos (digits2_pos p) <= 53.
Proof.
  intros H. rewrite digits2_pos_size.
  destruct (Z.le_gt_cases (Zpos (Pos.size p)) 53) as [L|G]; [exact L|exfalso].
  pose proof (Pos.size_le p) as S.
  assert (S' : 2 ^ Zpos (Pos.size p) <= 2 * Zpos p).
  { rewrite <- Pos2Z.inj_pow. change (2 * Zpos p) with (Zpos p~0).
    apply Pos2Z.pos_le_pos. exact S. }
  assert (2 ^ 54 <= 2 ^ Zpos (Pos.size p)) by (apply Z.pow_le_mono_r; lia).
  change (2 ^ 54) with (2 * 2 ^ 53) in *. lia.
Qed.

Lemma digits2_pos_lt (p : positive) : Zpos p < 2 ^ Zpos (digits2_pos p).
Proof.
  rewrite digits2_pos_size, <- Pos2Z.inj_pow.
  apply Pos2Z.pos_lt_pos, Pos.size_gt.
Qed.

Lemma digits2_pos_iter_xO (q p : positive) :
  Zpos (digits2_pos (Pos.iter xO p q)) = Zpos (digits2_pos p) + Zpos q.
Proof.
  induction q as [|q IH] using Pos.peano_ind.
  - cbn. lia.
  - rewrite Pos.iter_succ. cbn [digits2_pos]. lia.
Qed.

(** A mantissa that is canonical for its exponent is left as it is. *)
Lemma binary_round_aux_canonical (s : bool) (m : positive) (e : Z) :
  fexp prec emax (Zpos (digits2_pos m) + e) = e ->
  e <= emax - prec ->
  binary_round_aux prec emax s (Zpos m) e loc_Exact = S754_finite s m e.
Proof.
  intros Hc He. unfold binary_round_aux, shr_fexp. unfold Zdigits2 at 1.
  rewrite Hc, Z.sub_diag. cbn [shr shr_record_of_loc shr_m loc_of_shr_record
                                round_nearest_even].
  unfold Zdigits2. rewrite Hc, Z.sub_diag. cbn [shr shr_m].
  apply Z.leb_le in He. now rewrite He.
Qed.

(** An integer of fewer than 54 bits is a finite Number. *)
Lemma of_Z_finite (n : Z) : - 2 ^ 53 < n < 2 ^ 53 -> isFinite (of_Z n) = true.
Proof.
  intros Hn. unfold of_Z.
  destruct n as [|p|p]; [reflexivity| |];
    cbn [binary_normalize]; unfold binary_round;
    (assert (Hd : Zpos (digits2_pos p) <= 53) by (apply digits2_pos_bound; lia));
    pose proof (Pos2Z.is_pos (digits2_pos p)) as Hd0;
    rewrite Z.add_0_r;
    (assert (Hf : fexp prec emax (Zpos (digits2_pos p)) = Zpos (digits2_pos p) - 53)
      by (unfold fexp, SpecFloat.emin, prec, emax; lia));
    rewrite Hf; unfold shl_align;
    destruct (Zpos (digits2_pos p) - 53 - 0) as [|q|q] eqn:Eq; try lia;
    rewrite binary_round_aux_canonical;
    try (apply FloatFacts.isFinite_SF; right;
         rewrite Prim2SF_SF2Prim; [eauto|];
         unfold valid_binary, bounded, canonical_mantissa;
         apply andb_true_iff; split; [apply Z.eqb_eq|apply Z.leb_le]);
    rewrite ?digits2_pos_iter_xO;
    unfold fexp, SpecFloat.emin, prec, emax in *; lia.
Qed.

(** [Math.round] of a finite Number is a finite Number. *)
Lemma Math_round_finite (x : float) :
  isFinite x = true -> isFinite (Math_round x) = true.
Proof.
  intros H. unfold Math_round.
  pose proof (Prim2SF_valid x) as Hv.
  destruct (Prim2SF x) as [s| s| |s m e] eqn:E; try exact H.
  destruct (Z.leb_spec 0 e) as [_|He]; [exact H|].
  destruct (_ =? 0) eqn:N; [destruct s; reflexivity|].
  apply of_Z_finite.
  cbn [valid_binary] in Hv. unfold bounded, canonical_mantissa in Hv.
  apply andb_true_iff in Hv. destruct Hv as [Hc _]. apply Z.eqb_eq in Hc.
  assert (Hd : Zpos (digits2_pos m) <= 53)
    by (unfold fexp, SpecFloat.emin, prec, emax in Hc; lia).
  pose proof (digits2_pos_lt m) as Hm.
  assert (Hm' : Zpos m < 2 ^ 53).
  { eapply Z.lt_le_trans; [exact Hm|]. apply Z.pow_le_mono_r; lia. }
  rewrite Z.shiftr_div_pow2, Z.shiftl_mul_pow2 by lia.
  rewrite Z.mul_1_l.
  replace (2 ^ (- e)) with (2 * 2 ^ (- e - 1))
    by (rewrite <- Z.pow_succ_r by lia; f_equal; lia).
  assert (HP : 1 <= 2 ^ (- e - 1))
    by (pose proof (Z.pow_pos_nonneg 2 (- e - 1)); lia).
  set (P := 2 ^ (- e - 1)) in *.
  assert (H53 : 0 < 2 ^ 53) by reflexivity.
  set (B := 2 ^ 53) in *.
  split.
  - apply Z.lt_le_trans with (- B + 1); [lia|].
    apply Z.div_le_lower_bound; [lia|]. destruct s; cbn [cond_Zopp]; nia.
  - apply Z.div_lt_upper_bound; [lia|]. destruct s; cbn [cond_Zopp]; nia.
Qed.

End RoundFinite.

(** * Further properties of the projection series *)

(** X9. Whatever the principal, the start year, the rate and the axis,
    and whatever [Math.pow] returns, an entry of the projection is [null]
    or a finite Number: neither NaN nor an infinity is ever plotted. *)
Theorem computeUserSeries_finite (pow_approx : float -> float -> float)
    (YEARS : list float) (principal startYear rate : float) :
  Forall (fun e => match e with
                   | None => True
                   | Some v => isFinite v = true
                   end)
         (computeUserSeries pow_approx YEARS principal startYear rate).
Proof.
  unfold computeUserSeries. apply Forall_map, Forall_forall. intros year _.
  unfold userEntry.
  destruct (year <? startYear)%float; [exact I|].
  destruct (isFinite _) eqn:F; [|exact I].
  now apply Math_round_finite.
Qed.

Lemma mul_not_finite_l (a b : float) :
  isFinite a = false -> isFinite (a * b)%float = false.
Proof.
  intros Ha.
  destruct (isFinite (a * b)%float) eqn:E; [|reflexivity]. exfalso.
  apply FloatFacts.isFinite_SF in E. rewrite mul_spec in E.
  assert (Ha' : ~ ((exists s, Prim2SF a = S754_zero s)
                   \/ (exists s m e, Prim2SF a = S754_finite s m e))).
  { intros H. apply FloatFacts.isFinite_SF in H. congruence. }
  destruct (Prim2SF a) as [sa| sa| |sa ma ea].
  - apply Ha'. eauto.
  - destruct (Prim2SF b) as [sb| sb| |sb mb eb]; cbn in E;
      destruct E as [[? E]|[? [? [? E]]]]; discriminate.
  - destruct (Prim2SF b) as [sb| sb| |sb mb eb]; cbn in E;
      destruct E as [[? E]|[? [? [? E]]]]; discriminate.
  - apply Ha'. eauto 6.
Qed.

Lemma is_nan_eq (x : float) : PrimFloat.is_nan x = true -> x = nan.
Proof.
  intros H. apply FloatFacts.is_nan_SF in H. apply Prim2SF_inj. now rewrite H.
Qed.

Lemma ltb_nan_r (a : float) : (a <? nan)%float = false.
Proof.
  rewrite ltb_spec. change (Prim2SF nan) with S754_nan. unfold SFltb.
  now destruct (Prim2SF a).
Qed.

Lemma sub_nan_r (a : float) : (a - nan)%float = nan.
Proof.
  apply Prim2SF_inj. rewrite sub_spec.
  change (Prim2SF nan) with S754_nan. now destruct (Prim2SF a).
Qed.

(** X10. Nothing is plotted for a principal that is not a finite Number
    or a start year that is NaN: the projection is then [null] at every
    year of the axis. *)
Theorem computeUserSeries_all_null (pow_approx : float -> float -> float)
    (YEARS : list float) (principal startYear rate : float) :
  isFinite principal = false \/ PrimFloat.is_nan startYear = true ->
  computeUserSeries pow_approx YEARS principal startYear rate
  = map (fun _ => None) YEARS.
Proof.
  intros H. unfold computeUserSeries. apply map_ext. intros year.
  unfold userEntry. destruct H as [H|H].
  - destruct (year <? startYear)%float; [reflexivity|].
    now rewrite (mul_not_finite_l principal _ H).
  - apply is_nan_eq in H. subst startYear.
    rewrite ltb_nan_r, sub_nan_r.
    change (Math_pow pow_approx (1 + rate) nan) with nan.
    now rewrite mul_nan.
Qed.

Lemma computeUserSeries_all_null_witness :
  computeUserSeries pow_repeat (YEARS_of 2017) (safeParseNumber (VString "abc")) 2015 0.1
  = [None; None; None].
Proof.
  rewrite computeUserSeries_all_null by (left; reflexivity). reflexivity.
Defined.

(** * Commas in an amount *)

Lemma safeParseNumber_cleaned (s : string) :
  safeParseNumber (VString s) = parseFloat (trim (remove_commas s)).
Proof. destruct s; reflexivity. Qed.

(** X11. Commas never matter to [safeParseNumber]: two texts that differ
    only in their commas (how many, and where) parse to the same Number. *)
Theorem safeParseNumber_ignores_commas (s t : string) :
  remove_commas s = remove_commas t ->
  safeParseNumber (VString s) = safeParseNumber (VString t).
Proof.
  intros H. now rewrite !safeParseNumber_cleaned, H.
Qed.

Lemma safeParseNumber_ignores_commas_witness :
  safeParseNumber (VString "1,00,000") = safeParseNumber (VString "100,000")
  /\ safeParseNumber (VString "1,00,000") = 100000%float.
Proof.
  split.
  - apply safeParseNumber_ignores_commas. reflexivity.
  - reflexivity.
Defined.

(** * The category buttons and the tabs *)

Lemma nth_error_activate_at (btns : list category_btn) :
  forall i j,
    nth_error (activate_at i btns) j
    = if (j =? i)%nat then option_map activate (nth_error btns j)
      else nth_error btns j.
Proof.
  induction btns as [|b btns IH]; intros [|i] [|j]; cbn; try reflexivity.
  - now destruct (j =? i)%nat.
  - apply IH.
Qed.

Lemma length_activate_at (btns : list category_btn) :
  forall i, length (activate_at i btns) = length btns.
Proof. induction btns as [|b btns IH]; intros [|i]; cbn; auto. Qed.

Lemma query_active_activate_at (btns : list category_btn) :
  forall i b,
    nth_error btns i = Some b ->
    query_active (activate_at i (map deactivate btns))
    = if btn_in_selector b then Some (btn_cagr b) else None.
Proof.
  unfold query_active.
  induction btns as [|a btns IH]; intros [|i] b H; cbn in H; try discriminate.
  - injection H as ->. cbn [map activate_at find activate deactivate
                            btn_in_selector btn_active btn_cagr].
    destruct (btn_in_selector b); cbn [andb]; [reflexivity|].
    clear IH. induction btns as [|c btns IH]; [reflexivity|].
    cbn [map find deactivate btn_in_selector btn_active].
    now rewrite andb_false_r.
  - cbn [map activate_at find deactivate btn_in_selector btn_active].
    rewrite andb_false_r. now apply IH.
Qed.

(** X12. A click on a category button leaves exactly that button active,
    whatever was active before: every button keeps its rate, the clicked
    one has the class [active] and [aria-checked] "true", all others
    neither; and the calculator then runs with the clicked button's rate
    (or with no category, when that button is outside the selector). *)
Theorem click_category_exclusive (pow_approx : float -> float -> float)
    (toLocaleString : float -> string) (YEARS : list float) (CURRENT_YEAR : float)
    (niftyData : list float) (i : nat) (btns : list category_btn) (p : page)
    (clicked : category_btn) :
  nth_error btns i = Some clicked ->
  let r := click_category pow_approx toLocaleString YEARS CURRENT_YEAR niftyData
             i btns p in
  length (fst r) = length btns
  /\ (forall j b, nth_error btns j = Some b ->
        exists b', nth_error (fst r) j = Some b'
                   /\ btn_cagr b' = btn_cagr b
                   /\ btn_in_selector b' = btn_in_selector b
                   /\ btn_active b' = (j =? i)%nat
                   /\ btn_aria_checked b'
                      = Some (if (j =? i)%nat then "true" else "false")%string)
  /\ snd r
     = calculateGrowth pow_approx toLocaleString YEARS CURRENT_YEAR niftyData
         (with_active p (if btn_in_selector clicked
                         then Some (btn_cagr clicked) else None)).
Proof.
  intros Hi r. unfold r, click_category. cbn [fst snd].
  split; [now rewrite length_activate_at, length_map|]. split.
  - intros j b Hj. rewrite nth_error_activate_at, nth_error_map, Hj.
    cbn [option_map]. destruct (j =? i)%nat; eexists; repeat split; reflexivity.
  - now rewrite (query_active_activate_at btns i clicked Hi).
Qed.

Lemma click_category_exclusive_witness :
  let r := click_category pow_repeat enIN (YEARS_of 2025) (of_Z 2025)
             (niftyData_of 2025) 1 sample_buttons
             (sample_page "10000" "2015" None 2025) in
  map btn_active (fst r) = [false; true; false]
  /\ simCagrUsedEl (fst (snd r)) = Some "8.00%"%string.
Proof.
  cbv zeta. split; [reflexivity|].
  pose proof (click_category_exclusive pow_repeat enIN (YEARS_of 2025) (of_Z 2025)
                (niftyData_of 2025) 1 sample_buttons
                (sample_page "10000" "2015" None 2025) _ eq_refl) as H.
  cbv zeta in H. destruct H as [_ [_ H]]. rewrite H. vm_compute. reflexivity.
Defined.

Lemma nth_error_activate_tab_at (btns : list tab_button) :
  forall i j,
    nth_error (activate_tab_at i btns) j
    = if (j =? i)%nat
      then option_map (fun b => {| tab_active := true; data_tab := data_tab b |})
                      (nth_error btns j)
      else nth_error btns j.
Proof.
  induction btns as [|b btns IH]; intros [|i] [|j]; cbn; try reflexivity.
  - now destruct (j =? i)%nat.
  - apply IH.
Qed.

(** X13. A click on a tab button leaves exactly that button active, and
    a tab content active exactly when its id is the button's [data-tab];
    without that attribute no content is active. *)
Theorem click_tab_exclusive (i : nat) (btns : list tab_button)
    (contents : list tab_content) (clicked : tab_button) :
  nth_error btns i = Some clicked ->
  let r := click_tab i btns contents in
  (forall j b, nth_error btns j = Some b ->
     nth_error (fst r) j
     = Some {| tab_active := (j =? i)%nat; data_tab := data_tab b |})
  /\ (forall k c, nth_error contents k = Some c ->
        nth_error (snd r) k
        = Some {| content_id := content_id c;
                  content_active :=
                    match data_tab clicked with
                    | Some t => String.eqb (content_id c) t
                    | None => false
                    end |})
  /\ (data_tab clicked = None ->
        Forall (fun c => content_active c = false) (snd r)).
Proof.
  intros Hi r. unfold r, click_tab. cbn [fst snd]. rewrite Hi.
  split; [|split].
  - intros j b Hj. rewrite nth_error_activate_tab_at, nth_error_map, Hj.
    cbn [option_map]. now destruct (j =? i)%nat.
  - intros k c Hk. now rewrite nth_error_map, Hk.
  - intros ->. apply Forall_map, Forall_forall. intros c _. reflexivity.
Qed.

Lemma click_tab_exclusive_witness :
  click_tab 1
    [ {| tab_active := true; data_tab := Some "a"%string |};
      {| tab_active := false; data_tab := Some "b"%string |} ]
    [ {| content_id := "a"; content_active := true |};
      {| content_id := "b"; content_active := false |} ]
  = ([ {| tab_active := false; data_tab := Some "a"%string |};
       {| tab_active := true; data_tab := Some "b"%string |} ],
     [ {| content_id := "a"; content_active := false |};
       {| content_id := "b"; content_active := true |} ]).
Proof.
  pose proof (click_tab_exclusive 1
    [ {| tab_active := true; data_tab := Some "a"%string |};
      {| tab_active := false; data_tab := Some "b"%string |} ]
    [ {| content_id := "a"; content_active := true |};
      {| content_id := "b"; content_active := false |} ] _ eq_refl) as H.
  cbv zeta in H. destruct H as [_ _]. reflexivity.
Defined.

(** * The lead form *)

Lemma digits_exactly_spec (n : nat) :
  forall s,
    digits_exactly n s = true
    <-> String.length s = n
        /\ forall k c, String.get k s = Some c -> digit c <> None.
Proof.
  induction n as [|n IH]; intros [|c s]; cbn [digits_exactly String.length].
  - split; [intros _; split; [reflexivity|intros k c' H; discriminate]|reflexivity].
  - split; [discriminate|intros [H _]; discriminate].
  - split; [discriminate|intros [H _]; discriminate].
  - destruct (digit c) eqn:D.
    + rewrite IH. split.
      * intros [L F]. split; [now rewrite L|].
        intros [|k] c' H; cbn in H.
        -- injection H as <-. congruence.
        -- now apply (F k).
      * intros [L F]. split; [now injection L|].
        intros k c' H. apply (F (S k)). exact H.
    + split; [discriminate|]. intros [_ F]. exfalso.
      apply (F 0%nat c); [reflexivity|exact D].
Qed.

(** X14. The form accepts a lead exactly when the name is not empty and
    the phone consists of ten characters, each a decimal digit. *)
Theorem lead_accepted_iff (name phone : string) :
  lead_accepted name phone = true
  <-> name <> ""%string
      /\ String.length phone = 10%nat
      /\ forall k c, String.get k phone = Some c -> digit c <> None.
Proof.
  unfold lead_accepted.
  rewrite andb_true_iff, negb_true_iff, String.eqb_neq, digits_exactly_spec.
  tauto.
Qed.

(** X15. What a submission does.  A lead that is not accepted raises the
    alert and nothing else: the page is left as it was and no request is
    sent.  An accepted lead is sent once, to [/api/submit], with the
    trimmed name and phone; each control's value becomes its default
    value, the submit button is enabled again with the text it had, the
    confirmation replaces the form when both exist (and neither is touched
    otherwise), and the modal is set to close after 600 ms, its display
    and the popup flag being left as they were. *)
Theorem submit_lead_effects (d : lead_dom) :
  let name := field_text (lead_name d) in
  let phone := field_text (lead_phone d) in
  let r := submit_lead d in
  (lead_accepted name phone = false ->
     fst r = d /\ exists msg, snd r = [Alert msg])
  /\ (lead_accepted name phone = true ->
        snd r = [Fetch "/api/submit" "POST" "application/json" name phone;
                 SetTimeout_closeModal 600]
        /\ lead_name (fst r)
           = option_map (fun c => {| ctl_value := ctl_default c;
                                     ctl_default := ctl_default c |}) (lead_name d)
        /\ lead_phone (fst r)
           = option_map (fun c => {| ctl_value := ctl_default c;
                                     ctl_default := ctl_default c |}) (lead_phone d)
        /\ submitButton (fst r)
           = option_map (fun b => {| sb_disabled := false; sb_text := sb_text b |})
                        (submitButton d)
        /\ (forall f c, formContainer d = Some f -> confirmationMessage d = Some c ->
              formContainer (fst r) = Some "none"%string
              /\ confirmationMessage (fst r) = Some "block"%string)
        /\ (formContainer d = None \/ confirmationMessage d = None ->
              formContainer (fst r) = formContainer d
              /\ confirmationMessage (fst r) = confirmationMessage d)
        /\ leadModal (fst r) = leadModal d
        /\ popupShown (fst r) = popupShown d)
  /\ (forall u m t n ph, In (Fetch u m t n ph) (snd r) ->
        lead_accepted n ph = true /\ n = name /\ ph = phone).
Proof.
  intros name phone r. unfold r, submit_lead. fold name phone.
  destruct (lead_accepted name phone) eqn:A; cbn [negb fst snd].
  - split; [discriminate|]. split.
    + intros _. split; [reflexivity|].
      split; [reflexivity|].
      split; [reflexivity|].
      split; [now destruct (submitButton d)|].
      split; [intros f c -> ->; split; reflexivity|].
      split; [|split; reflexivity].
      intros [E|E]; rewrite E; [split; reflexivity|].
      destruct (formContainer d); split; reflexivity.
    + intros u m t n ph [H|[H|[]]]; [|discriminate].
      injection H as _ _ _ <- <-. auto.
  - split; [intros _; split; [reflexivity|eauto]|].
    split; [discriminate|].
    intros u m t n ph [H|[]]. discriminate.
Qed.

Lemma submit_lead_effects_witness :
  snd (submit_lead (sample_lead "  Asha " " 9876543210 "))
  = [Fetch "/api/submit" "POST" "application/json" "Asha" "9876543210";
     SetTimeout_closeModal 600]
  /\ lead_name (fst (submit_lead (sample_lead "  Asha " " 9876543210 ")))
     = Some {| ctl_value := ""; ctl_default := "" |}
  /\ lead_phone (fst (submit_lead (sample_lead "  Asha " " 9876543210 ")))
     = Some {| ctl_value := ""; ctl_default := "" |}
  /\ fst (submit_lead (sample_lead "Asha" "+919876543210"))
     = sample_lead "Asha" "+919876543210".
Proof.
  pose proof (submit_lead_effects (sample_lead "  Asha " " 9876543210 ")) as H.
  pose proof (submit_lead_effects (sample_lead "Asha" "+919876543210")) as K.
  cbv zeta in H, K.
  destruct H as [_ [H _]]. destruct K as [K _].
  specialize (H eq_refl). destruct H as [H1 [H2 [H3 _]]].
  split; [exact H1|].
  split; [exact H2|].
  split; [exact H3|].
  exact (proj1 (K eq_refl)).
Defined.

(** X16. After an accepted submission the timer closes the modal, and the
    next opening of the modal shows the form again, not the
    confirmation. *)
Theorem reopen_after_submission (d : lead_dom) (f c : string) (shown : bool) :
  formContainer d = Some f ->
  confirmationMessage d = Some c ->
  leadModal d = Some shown ->
  lead_accepted (field_text (lead_name d)) (field_text (lead_phone d)) = true ->
  let closed := closeModal (fst (submit_lead d)) in
  let reopened := openModal closed in
  leadModal closed = Some false
  /\ confirmationMessage closed = Some "block"%string
  /\ leadModal reopened = Some true
  /\ formContainer reopened = Some "block"%string
  /\ confirmationMessage reopened = Some "none"%string.
Proof.
  intros Hf Hc Hm A closed reopened.
  unfold reopened, closed, submit_lead. rewrite A. cbn [negb fst].
  unfold openModal, closeModal.
  cbn [leadModal formContainer confirmationMessage].
  rewrite Hf, Hc, Hm. repeat split; reflexivity.
Qed.

Lemma reopen_after_submission_witness :
  let d := sample_lead "Asha" "9876543210" in
  formContainer (openModal (closeModal (fst (submit_lead d)))) = Some "block"%string.
Proof.
  cbv zeta.
  pose proof (reopen_after_submission (sample_lead "Asha" "9876543210")
                "block" "none" true eq_refl eq_refl eq_refl eq_refl) as H.
  cbv zeta in H. exact (proj1 (proj2 (proj2 (proj2 H)))).
Defined.

(** * The popup on scroll *)

Lemma scrolls_shown (events : list (float * float * float)) :
  forall d, popupShown d = true -> scrolls events d = d.
Proof.
  unfold scrolls.
  induction events as [|[[y h] t] events IH]; intros d H; [reflexivity|].
  cbn [fold_left]. unfold on_scroll at 2. rewrite H. now apply IH.
Qed.

(** X17. The popup opens the modal at most once.  Once the flag is set,
    no scroll changes the page again, so a modal the visitor has closed
    stays closed however the page is scrolled; and a run of scrolls that
    sets the flag leaves the modal open, with the rest of the page as the
    first opening left it. *)
Theorem popup_only_once (events : list (float * float * float)) (d : lead_dom) :
  (popupShown d = true -> scrolls events d = d)
  /\ (popupShown (scrolls events d) = true ->
        forall more, scrolls more (closeModal (scrolls events d))
                     = closeModal (scrolls events d))
  /\ (popupShown d = false ->
        scrolls events d = d
        \/ (popupShown (scrolls events d) = true
            /\ leadModal (scrolls events d)
               = option_map (fun _ => true) (leadModal d)
            /\ lead_name (scrolls events d) = lead_name d
            /\ lead_phone (scrolls events d) = lead_phone d
            /\ submitButton (scrolls events d) = submitButton d)).
Proof.
  split; [apply scrolls_shown|]. split.
  - intros H more. apply scrolls_shown. exact H.
  - revert d. induction events as [|[[y h] t] events IH]; intros d H.
    + now left.
    + change (scrolls ((y, h, t) :: events) d)
        with (scrolls events (on_scroll y h t d)).
      unfold on_scroll. rewrite H.
      destruct (geb _ _).
      * right. rewrite scrolls_shown
          by (destruct (leadModal d) as [[|]|]; reflexivity).
        destruct (leadModal d) as [[|]|] eqn:M;
          cbn [openModal popupShown leadModal lead_name lead_phone submitButton
               option_map]; rewrite ?M; repeat split; reflexivity.
      * now apply IH.
Qed.

Lemma popup_only_once_witness :
  let d := {| lead_name := None; lead_phone := None; submitButton := None;
              formContainer := Some "none"%string;
              confirmationMessage := Some "block"%string;
              leadModal := Some false; popupShown := false |} in
  let after := scrolls [(0, 800, 4000); (1300, 800, 4000)]%float d in
  leadModal after = Some true
  /\ scrolls [(3000, 800, 4000)]%float (closeModal after) = closeModal after.
Proof.
  cbv zeta. split; [reflexivity|].
  match goal with |- scrolls ?m (closeModal (scrolls ?es ?d)) = _ =>
    destruct (popup_only_once es d) as [_ [H _]]; apply (H eq_refl m) end.
Defined.

(** * Unreadable input *)

Lemma parseInt10_nan (s : string) :
  starts_with_digit (snd (scan_sign (trim_start s))) = false ->
  parseInt10 s = nan.
Proof.
  intros H. unfold parseInt10.
  destruct (scan_sign (trim_start s)) as [neg r]. cbn [snd] in H.
  pose proof (scan_digits_spec r 0 0) as K.
  destruct (scan_digits r 0 0) as [[v n] r'].
  destruct K as [_ [K _]]. destruct (K H) as [-> _]. reflexivity.
Qed.

(** X18. A run on text it cannot read shows nothing.  When the amount is
    empty, or its text, once the commas are removed, the white space
    around it trimmed and an optional sign skipped, does not begin with a
    decimal literal (a digit, a point followed by a digit, or
    [Infinity]), or the year's text, once its leading white space and an
    optional sign are skipped, does not begin with a digit (as the value
    of an empty select), the result box is hidden and the projection
    cleared, whichever category is active. *)
Theorem calculateGrowth_unreadable (pow_approx : float -> float -> float)
    (toLocaleString : float -> string) (YEARS : list float) (CURRENT_YEAR : float)
    (niftyData : list float) (p : page) (amount year box : string) :
  simAmountInput p = Some amount ->
  simYearSelect p = Some year ->
  simResultBox p = Some box ->
  amount = ""%string
  \/ starts_with_literal (cleaned amount) = false
  \/ starts_with_digit (snd (scan_sign (trim_start year))) = false ->
  let p' := fst (calculateGrowth pow_approx toLocaleString YEARS CURRENT_YEAR niftyData p) in
  simResultBox p' = Some "none"%string
  /\ user_hidden (marketChart p') = true
  /\ user_data (marketChart p') = map (fun _ => None) YEARS.
Proof.
  intros Ea Ey Eb H p'.
  assert (G : gate CURRENT_YEAR amount year (activeBtn p) = false).
  { unfold gate. destruct (activeBtn p) as [attr|]; [|reflexivity]. cbv zeta.
    destruct H as [H|[H|H]].
    - subst amount. reflexivity.
    - assert (N : PrimFloat.is_nan (safeParseNumber (VString amount)) = true).
      { rewrite safeParseNumber_cleaned. fold (cleaned amount).
        now rewrite parseFloat_nan_iff, H. }
      apply is_nan_eq in N. now rewrite N.
    - rewrite (parseInt10_nan year H).
      change (isFinite nan) with false. now rewrite andb_false_r. }
  pose proof (calculateGrowth_suppressed pow_approx toLocaleString YEARS
                CURRENT_YEAR niftyData p amount year box Ea Ey Eb G) as E.
  cbv zeta in E. unfold p'. rewrite E. repeat split; reflexivity.
Qed.

Lemma calculateGrowth_unreadable_witness :
  let p' := fst (calculateGrowth_in pow_repeat enIN 2025
                   (sample_page "Rs 5000" "2015" (Some (Some "12"%string)) 2025)) in
  simResultBox p' = Some "none"%string /\ user_hidden (marketChart p') = true.
Proof.
  cbv zeta.
  pose proof (calculateGrowth_unreadable pow_repeat enIN (YEARS_of 2025) (of_Z 2025)
                (niftyData_of 2025)
                (sample_page "Rs 5000" "2015" (Some (Some "12"%string)) 2025)
                "Rs 5000" "2015" "none" eq_refl eq_refl eq_refl) as H.
  cbv zeta in H.
  destruct H as [H1 [H2 _]]; [right; left; reflexivity|].
  split; assumption.
Defined.

(** * The chart the script builds *)

(** X19. For every current year the chart starts out aligned (as many
    benchmark values and projection entries as years on the axis, none
    when the clock is before 2015), and every run on it, from whatever
    page, leaves and draws charts that are aligned the same way. *)
Theorem chart_aligned (pow_approx : float -> float -> float)
    (toLocaleString : float -> string) (cy : Z) (p : page) :
  let n := Z.to_nat (cy - 2015 + 1) in
  let aligned c := length (nifty_data c) = n /\ length (user_data c) = n in
  length (YEARS_of cy) = n
  /\ aligned (initial_chart cy)
  /\ (simAmountInput p <> None -> simYearSelect p <> None -> simResultBox p <> None ->
      let r := calculateGrowth_in pow_approx toLocaleString cy p in
      Forall aligned (marketChart (fst r) :: snd r)).
Proof.
  intros n aligned.
  assert (Ly : length (YEARS_of cy) = n)
    by (unfold YEARS_of; now rewrite length_map, length_seq).
  assert (Ln : length (niftyData_of cy) = n)
    by (unfold niftyData_of; now rewrite length_buildNiftyData).
  split; [exact Ly|]. split.
  - unfold aligned, initial_chart. cbn [nifty_data user_data].
    now rewrite !length_map, Ln, Ly.
  - intros Ha Hy Hb r.
    destruct (simAmountInput p) as [amount|] eqn:Ea; [|congruence].
    destruct (simYearSelect p) as [year|] eqn:Ey; [|congruence].
    destruct (simResultBox p) as [box|] eqn:Eb; [|congruence].
    unfold r, calculateGrowth_in, aligned.
    destruct (gate (of_Z cy) amount year (activeBtn p)) eqn:G.
    + destruct (calculateGrowth_shown pow_approx toLocaleString (YEARS_of cy) (of_Z cy)
                  (niftyData_of cy) p amount year box Ea Ey Eb G) as [attr [_ E]].
      cbv zeta in E. rewrite E. cbn [fst snd shown_page marketChart].
      repeat constructor; cbn [nifty_data user_data];
        first [ unfold scaledNiftyData; rewrite length_mapi_from; exact Ln
              | unfold computeUserSeries; rewrite length_map; exact Ly ].
    + pose proof (calculateGrowth_suppressed pow_approx toLocaleString (YEARS_of cy)
                    (of_Z cy) (niftyData_of cy) p amount year box Ea Ey Eb G) as E.
      cbv zeta in E. rewrite E. cbn [fst snd suppressed_page marketChart].
      repeat constructor; cbn [nifty_data user_data];
        first [ unfold scaledNiftyData; rewrite length_mapi_from; exact Ln
              | rewrite length_map; exact Ly ].
Qed.

Lemma chart_aligned_witness :
  let r := calculateGrowth_in pow_repeat enIN 2031
             (sample_page "25,000" "2019" (Some (Some "0.07"%string)) 2031) in
  length (user_data (marketChart (fst r))) = 17%nat
  /\ length (nifty_data (marketChart (fst r))) = 17%nat.
Proof.
  cbv zeta.
  pose proof (chart_aligned pow_repeat enIN 2031
                (sample_page "25,000" "2019" (Some (Some "0.07"%string)) 2031)) as H.
  cbv zeta in H. destruct H as [_ [_ H]].
  specialize (H ltac:(discriminate) ltac:(discriminate) ltac:(discriminate)).
  apply Forall_inv in H. destruct H as [H1 H2]. split; assumption.
Defined.

(** * The accordion *)

Lemma append_px_nonempty (s : string) : (s ++ "px")%string <> ""%string.
Proof. destruct s; discriminate. Qed.

(** X20. After any click on its header an accordion item is expanded
    exactly when it is active: the content has a [max-height] if and only
    if the item carries the class, whatever the style was before; and a
    second click undoes the first. *)
Theorem click_accordion_invariant (h h' : float) (item : accordion_item) :
  let once := click_accordion h item in
  let twice := click_accordion h' once in
  item_active once = negb (item_active item)
  /\ (content_maxHeight once = ""%string <-> item_active once = false)
  /\ item_active twice = item_active item
  /\ (item_active item = false -> content_maxHeight twice = ""%string).
Proof.
  cbv zeta. unfold click_accordion. cbn [item_active content_maxHeight].
  rewrite negb_involutive.
  destruct (item_active item); cbn [negb];
    repeat split; try reflexivity; try discriminate; intros H;
    try reflexivity; exfalso; now apply (append_px_nonempty _ H).
Qed.

(** * The animated highlight *)

Lemma animate_over_done (present : bool) (views : list view) (n : nat) :
  animate_over present views (true, n) = (true, n).
Proof.
  unfold animate_over. induction views as [|v views IH]; [reflexivity|exact IH].
Qed.

(** X21. The highlight number is animated at most once: over any run of
    scroll events and timer checks the animation is started once if the
    element was in the viewport at one of them, and never otherwise (in
    particular never when the element is missing). *)
Theorem animate_once (present : bool) (views : list view) :
  animate_over present views (false, 0%nat)
  = if existsb (isInViewport present) views then (true, 1%nat) else (false, 0%nat).
Proof.
  unfold animate_over.
  induction views as [|v views IH]; [reflexivity|].
  cbn [fold_left existsb maybe_animate].
  destruct (isInViewport present v); cbn [orb].
  - apply animate_over_done.
  - exact IH.
Qed.

(** * The initial default *)

(** X22. The initial default never overwrites an amount that is already
    there, leaves no amount input empty, and runs the calculator only if
    a category is active: without one the chart is untouched and nothing
    is drawn. *)
Theorem initial_default_amount (pow_approx : float -> float -> float)
    (toLocaleString : float -> string) (YEARS : list float) (CURRENT_YEAR : float)
    (niftyData : list float) (p : page) :
  let r := initial_default pow_approx toLocaleString YEARS CURRENT_YEAR niftyData p in
  simAmountInput (fst r)
  = match simAmountInput p with
    | Some EmptyString => Some "10000"%string
    | a => a
    end
  /\ (activeBtn p = None -> marketChart (fst r) = marketChart p /\ snd r = []).
Proof.
  intros r. unfold r, initial_default.
  set (q := match simAmountInput p with
            | Some EmptyString => set_amount p "10000"
            | _ => p
            end).
  assert (Qa : simAmountInput q = match simAmountInput p with
                                  | Some EmptyString => Some "10000"%string
                                  | a => a
                                  end)
    by (unfold q; destruct (simAmountInput p) as [[|c a]|] eqn:E;
        cbn [set_amount simAmountInput option_map]; rewrite ?E; reflexivity).
  assert (Qb : activeBtn q = activeBtn p /\ marketChart q = marketChart p)
    by (unfold q; destruct (simAmountInput p) as [[|c a]|]; split; reflexivity).
  destruct Qb as [Qb Qc]. rewrite Qb. split.
  - rewrite <- Qa. destruct (activeBtn p) as [attr|]; [|reflexivity].
    destruct (simAmountInput q) as [amount|] eqn:Ea;
      [|rewrite (calculateGrowth_missing _ _ _ _ _ q) by auto; exact Ea].
    destruct (simYearSelect q) as [year|] eqn:Ey;
      [|rewrite (calculateGrowth_missing _ _ _ _ _ q) by auto; exact Ea].
    destruct (simResultBox q) as [box|] eqn:Eb;
      [|rewrite (calculateGrowth_missing _ _ _ _ _ q) by auto; exact Ea].
    destruct (gate CURRENT_YEAR amount year (activeBtn q)) eqn:G.
    + destruct (calculateGrowth_shown pow_approx toLocaleString YEARS CURRENT_YEAR
                  niftyData q amount year box Ea Ey Eb G) as [a' [_ E]].
      cbv zeta in E. rewrite E. exact Ea.
    + pose proof (calculateGrowth_suppressed pow_approx toLocaleString YEARS
                    CURRENT_YEAR niftyData q amount year box Ea Ey Eb G) as E.
      cbv zeta in E. rewrite E. exact Ea.
  - intros ->. split; [exact Qc|reflexivity].
Qed.

Lemma initial_default_amount_witness :
  let r := initial_default pow_repeat enIN (YEARS_of 2025) (of_Z 2025)
             (niftyData_of 2025) (sample_page "" "2015" None 2025) in
  simAmountInput (fst r) = Some "10000"%string /\ snd r = [].
Proof.
  cbv zeta.
  pose proof (initial_default_amount pow_repeat enIN (YEARS_of 2025) (of_Z 2025)
                (niftyData_of 2025) (sample_page "" "2015" None 2025)) as H.
  cbv zeta in H. destruct H as [H1 H2]. split.
  - exact H1.
  - exact (proj2 (H2 eq_refl)).
Defined.
